(** * The libsql client/server benchmark (test1.py): model and properties

    A shallow embedding of [test1.py]: the result normaliser
    ([ResultObject]), the executor ([SQLClient.execute]), the scoped timer
    ([Bench]) and the orchestrator ([execute_bench]).

    Conventions of the model.
    - [time.time()] is an oracle: the k-th read of the clock returns
      [clock k].  Instants and durations are counted in ticks of the clock
      (a [Z]); subtraction is the exact one.
    - The database is an oracle: the k-th request sent through the client
      returns or raises [backend k sql args].
    - Python exceptions are an outcome of their own, next to returning;
      the two [while] loops of [execute_bench] run on fuel, and running
      out of fuel ([Running]) stands for "still looping". *)

From Stdlib Require Import ZArith List String Bool Lia Arith.
From Stdlib Require Import DecimalString.
Import ListNotations.
Local Open Scope string_scope.
Local Open Scope Z_scope.

(** ** Python values *)

(** An instant, or a duration: ticks of the clock. *)
Definition Time := Z.

(** A value of a row as the client hands it over: [None], an [int], a
    [str] or [bytes].  ([float] values are left out: no statement of the
    benchmark selects one.) *)
Inductive Value : Type :=
| VNone
| VInt (n : Z)
| VStr (s : string)
| VBytes (b : list nat).

(** The exceptions the program can meet.  [LibsqlError] is the only one
    [SQLClient.execute] catches. *)
Inductive Exn : Type :=
| LibsqlError (explanation code : string)
| TypeError
| IndexError
| KeyError (key : string)
| AttributeError
| AssertionError
| OtherError (name : string).

(** ** Dictionaries that remember insertion order *)

Module Dict.

(** A Python [dict] with [str] keys: the entries, in insertion order. *)
Definition t (V : Type) := list (string * V).

(** [d[k] = v]: an existing key keeps its place and takes the new value,
    a new key goes last. *)
Fixpoint set {V} (k : string) (v : V) (d : t V) : t V :=
  match d with
  | [] => [(k, v)]
  | (k', v') :: rest =>
      if String.eqb k k' then (k, v) :: rest
      else (k', v') :: set k v rest
  end.

(** [d[k]], [None] standing for [KeyError]. *)
Fixpoint get {V} (k : string) (d : t V) : option V :=
  match d with
  | [] => None
  | (k', v') :: rest => if String.eqb k k' then Some v' else get k rest
  end.

Definition keys {V} (d : t V) : list string := map fst d.

End Dict.

(** ** The raw result set and the normalised result *)

(** What [client.execute] returns (libsql_client's ResultSet). *)
Record ResultSet : Type := mkResultSet {
  rs_columns : list string;
  rs_rows : list (list Value);
  rs_last_insert_rowid : option Z;
  rs_rows_affected : Z
}.

Definition Record_ := Dict.t Value.

Record ErrorDesc : Type := mkError { message : string; code : string }.

(** The attributes of a [ResultObject].  [None] is Python's [None]; for the
    three durations, which [__init__] does not create, [None] says that the
    attribute was never set. *)
Record ResultObject : Type := mkResultObject {
  columns : option (list string);
  records : option (list Record_);
  last_insert_rowid : option Z;
  rows_affected : option Z;
  count : option nat;
  error : option ErrorDesc;
  success : option bool;
  request_duration : option Time;
  serialization_duration : option Time;
  total_duration : option Time
}.

(** The keyword arguments [ResultObject] is built with in this program. *)
Inductive Kwarg : Type :=
| kw_success (b : bool)
| kw_error (e : ErrorDesc).

Definition set_kwarg (o : ResultObject) (k : Kwarg) : ResultObject :=
  match k with
  | kw_success b =>
      mkResultObject (columns o) (records o) (last_insert_rowid o)
        (rows_affected o) (count o) (error o) (Some b)
        (request_duration o) (serialization_duration o) (total_duration o)
  | kw_error e =>
      mkResultObject (columns o) (records o) (last_insert_rowid o)
        (rows_affected o) (count o) (Some e) (success o)
        (request_duration o) (serialization_duration o) (total_duration o)
  end.

(** The first [__dict__.update] of [__init__]: every attribute [None]. *)
Definition blank : ResultObject :=
  mkResultObject None None None None None None None None None None.

(** The inner loop of [_init_result_set]:
    [for x, field in enumerate(row): record[result_set.columns[x]] = field],
    from index [x] on. *)
Fixpoint fill_record (cols : list string) (x : nat) (row : list Value)
    (record : Record_) : Exn + Record_ :=
  match row with
  | [] => inr record
  | field :: rest =>
      match nth_error cols x with
      | None => inl IndexError
      | Some c => fill_record cols (S x) rest (Dict.set c field record)
      end
  end.

(** The outer loop: [for row in result_set.rows: ...; records.append(record)]. *)
Fixpoint fill_records (cols : list string) (rows : list (list Value))
    (acc : list Record_) : Exn + list Record_ :=
  match rows with
  | [] => inr acc
  | row :: rest =>
      match fill_record cols 0 row [] with
      | inl e => inl e
      | inr record => fill_records cols rest (acc ++ [record])
      end
  end.

(** [ResultObject._init_result_set]. *)
Definition _init_result_set (self : ResultObject) (result_set : ResultSet)
    : Exn + ResultObject :=
  match fill_records (rs_columns result_set) (rs_rows result_set) [] with
  | inl e => inl e
  | inr recs =>
      inr (mkResultObject
             (Some (rs_columns result_set))
             (Some recs)
             (rs_last_insert_rowid result_set)
             (Some (rs_rows_affected result_set))
             (Some (List.length recs))
             (error self)
             (Some true)
             (request_duration self) (serialization_duration self)
             (total_duration self))
  end.

(** [ResultObject.__init__(result_set=None, **kwargs)]. *)
Definition ResultObject_init (result_set : option ResultSet)
    (kwargs : list Kwarg) : Exn + ResultObject :=
  let self := fold_left set_kwarg kwargs blank in
  match result_set with
  | None => inr self
  | Some rs => _init_result_set self rs
  end.

(** ** The world: clock, database, console *)

(** What [print] writes.  Formatting of numbers is left out: a message
    carries the values it shows. *)
Inductive Message : Type :=
| MsgText (s : string)
| MsgBenching (title : string)
| MsgTook (title : string) (seconds : Time)
| MsgInsertCheck (records_inserted : Value) (record_count : Z).

(** What a run does to the outside, and what the executor hands back
    ([EvResult], kept in the trace so that a property can speak of "the
    most recent query's result"). *)
Inductive Event : Type :=
| EvConnect (url : string)
| EvClose
| EvDispatch (sql : string) (args : option (list Value))
| EvResult (sql : string) (obj : ResultObject)
| EvSleep (seconds : Z)
| EvPrint (m : Message).

(** How many times the clock was read, how many requests were sent, and
    the events so far, the most recent first. *)
Record World : Type := mkWorld {
  reads : nat;
  calls : nat;
  trace : list Event
}.

Definition world0 : World := mkWorld 0 0 [].

(** How a piece of Python code ends: it returns, it raises, or (a loop out
    of fuel) it is still running. *)
Inductive Outcome (A : Type) : Type :=
| Returned (a : A)
| Raised (e : Exn)
| Running.
Arguments Returned {A} a.
Arguments Raised {A} e.
Arguments Running {A}.

(** Code that runs on a state [S]: the state is kept on every outcome, so
    that [with] and [except] see what happened before a raise. *)
Definition M (S A : Type) : Type := S -> Outcome A * S.

Definition ret {S A} (a : A) : M S A := fun s => (Returned a, s).

Definition bind {S A B} (m : M S A) (k : A -> M S B) : M S B :=
  fun s =>
    match m s with
    | (Returned a, s') => k a s'
    | (Raised e, s') => (Raised e, s')
    | (Running, s') => (Running, s')
    end.

Definition raise {S A} (e : Exn) : M S A := fun s => (Raised e, s).

Definition running {S A} : M S A := fun s => (Running, s).

(** [try: m], the exception (if any) handed to what follows. *)
Definition try {S A} (m : M S A) : M S (Exn + A) :=
  fun s =>
    match m s with
    | (Returned a, s') => (Returned (inr a), s')
    | (Raised e, s') => (Returned (inl e), s')
    | (Running, s') => (Running, s')
    end.

(** The end of a [with] block: re-raise what the body raised. *)
Definition reraise {S A} (r : Exn + A) : M S A :=
  match r with
  | inl e => raise e
  | inr a => ret a
  end.

(** A pure computation that may raise. *)
Definition liftE {S A} (r : Exn + A) : M S A := reraise r.

Declare Scope py_scope.
Delimit Scope py_scope with py.
Notation "x <- m ;; k" := (bind m (fun x => k))
  (at level 61, m at next level, right associativity) : py_scope.
Notation "m ;; k" := (bind m (fun _ => k))
  (at level 61, right associativity) : py_scope.
Local Open Scope py_scope.

(** The state inside a [with Bench(...)] block: the timer and the world. *)
Record Bench : Type := mkBench {
  title : string;
  time_start : option Time;
  time_end : option Time;
  _duration : option Time
}.

Definition lift {A} (m : M World A) : M (Bench * World) A :=
  fun s =>
    let '(r, w') := m (snd s) in (r, (fst s, w')).

Definition get_self : M (Bench * World) Bench :=
  fun s => (Returned (fst s), s).

Definition put_self (b : Bench) : M (Bench * World) unit :=
  fun s => (Returned tt, (b, snd s)).

(** [not x] for a value that is [None] or a number. *)
Definition falsy (x : option Time) : bool :=
  match x with
  | None => true
  | Some t => Z.eqb t 0
  end.

Section Program.

(** [clock k]: what the k-th call of [time.time()] returns. *)
Variable clock : nat -> Time.

(** [backend k sql args]: how the k-th request to the database ends. *)
Variable backend : nat -> string -> option (list Value) -> Exn + ResultSet.

(** [time.time()]. *)
Definition now : M World Time :=
  fun w => (Returned (clock (reads w)),
            mkWorld (S (reads w)) (calls w) (trace w)).

Definition emit (ev : Event) : M World unit :=
  fun w => (Returned tt, mkWorld (reads w) (calls w) (ev :: trace w)).

Definition print (m : Message) : M World unit := emit (EvPrint m).

(** [await asyncio.sleep(seconds)]. *)
Definition sleep (seconds : Z) : M World unit := emit (EvSleep seconds).

(** [await client.execute(sql, args=args)] of libsql_client. *)
Definition client_execute (sql : string) (args : option (list Value))
    : M World ResultSet :=
  fun w =>
    let w' := mkWorld (reads w) (S (calls w)) (EvDispatch sql args :: trace w) in
    match backend (calls w) sql args with
    | inl e => (Raised e, w')
    | inr rs => (Returned rs, w')
    end.

(** *** SQLClient *)

Record SQLClient : Type := mkSQLClient {
  url : string;
  client : option string
}.

Definition SQLClient_init (url : string) : SQLClient := mkSQLClient url None.

(** [SQLClient.__aenter__]; [create_client] is taken to succeed: a url
    that it refuses, for which it raises before anything is opened, is not
    covered. *)
Definition __aenter__ (self : SQLClient) : M World SQLClient :=
  emit (EvConnect (url self));;
  ret (mkSQLClient (url self) (Some (url self))).

(** [SQLClient.__aexit__]. *)
Definition __aexit__ (self : SQLClient) : M World unit :=
  match client self with
  | None => raise AttributeError
  | Some _ => emit EvClose
  end.

Definition set_request_duration (v : Time) (o : ResultObject) :=
  mkResultObject (columns o) (records o) (last_insert_rowid o)
    (rows_affected o) (count o) (error o) (success o)
    (Some v) (serialization_duration o) (total_duration o).

Definition set_serialization_duration (v : Time) (o : ResultObject) :=
  mkResultObject (columns o) (records o) (last_insert_rowid o)
    (rows_affected o) (count o) (error o) (success o)
    (request_duration o) (Some v) (total_duration o).

Definition set_total_duration (v : Time) (o : ResultObject) :=
  mkResultObject (columns o) (records o) (last_insert_rowid o)
    (rows_affected o) (count o) (error o) (success o)
    (request_duration o) (serialization_duration o) (Some v).

(** [SQLClient.execute]. *)
Definition execute (self : SQLClient) (sql : string)
    (args : option (list Value)) : M World ResultObject :=
  time_start <- now ;;
  r <- try (match client self with
            | None => raise AttributeError
            | Some _ =>
                result_set <- client_execute sql args ;;
                t <- now ;;
                ret (result_set, t - time_start)
            end) ;;
  match r with
  | inl (LibsqlError explanation code) =>
      obj <- liftE (ResultObject_init None
                      [kw_success false;
                       kw_error (mkError explanation code)]) ;;
      emit (EvResult sql obj) ;;
      ret obj
  | inl ex => raise ex
  | inr (result_set, request_duration) =>
      start_serialization <- now ;;
      obj <- liftE (ResultObject_init (Some result_set) []) ;;
      let obj := set_request_duration request_duration obj in
      t <- now ;;
      let obj := set_serialization_duration (t - start_serialization) obj in
      t <- now ;;
      let obj := set_total_duration (t - time_start) obj in
      emit (EvResult sql obj) ;;
      ret obj
  end.

(** [async with SQLClient(url) as client: body]. *)
Definition async_with_client {A} (url : string)
    (body : SQLClient -> M World A) : M World A :=
  self <- __aenter__ (SQLClient_init url) ;;
  r <- try (body self) ;;
  __aexit__ self ;;
  reraise r.

(** *** Bench *)

(** [Bench.__init__]: [self.duration = None] goes through the setter. *)
Definition Bench_init (title : string) : Bench :=
  mkBench title None None None.

(** [Bench.reset]. *)
Definition Bench_reset : M (Bench * World) unit :=
  self <- get_self ;;
  put_self (mkBench (title self) (time_start self) None None) ;;
  t <- lift now ;;
  self <- get_self ;;
  put_self (mkBench (title self) (Some t) (time_end self) (_duration self)).

(** [Bench.__enter__]. *)
Definition Bench_enter : M (Bench * World) unit :=
  t <- lift now ;;
  self <- get_self ;;
  put_self (mkBench (title self) (Some t) (time_end self) (_duration self)) ;;
  lift (print (MsgBenching (title self))).

(** The getter of [Bench.duration]. *)
Definition Bench_duration : M (Bench * World) (option Time) :=
  self <- get_self ;;
  (if falsy (_duration self) then
     t <- lift now ;;
     put_self (mkBench (title self) (time_start self) (Some t) (_duration self)) ;;
     t <- lift now ;;
     self <- get_self ;;
     match time_start self with
     | None => raise TypeError
     | Some start =>
         put_self (mkBench (title self) (time_start self) (time_end self)
                     (Some (t - start)))
     end
   else ret tt) ;;
  self <- get_self ;;
  ret (_duration self).

(** The setter of [Bench.duration]. *)
Definition Bench_set_duration (value : option Time) : M (Bench * World) unit :=
  self <- get_self ;;
  put_self (mkBench (title self) (time_start self) (time_end self) value).

(** [Bench.__exit__]. *)
Definition Bench_exit : M (Bench * World) unit :=
  Bench_duration ;;
  self <- get_self ;;
  d <- Bench_duration ;;
  match d with
  | None => raise AttributeError
  | Some seconds => lift (print (MsgTook (title self) seconds))
  end.

(** The state in which the body of [with Bench(ttl)] starts: what
    [__enter__] makes of a new timer. *)
Definition entered (ttl : string) (w : World) : Bench * World :=
  (mkBench ttl (Some (clock (reads w))) None None,
   mkWorld (S (reads w)) (calls w) (EvPrint (MsgBenching ttl) :: trace w)).

(** [with Bench(title) as bench: body]. *)
Definition with_bench {A} (title : string) (body : M (Bench * World) A)
    : M World A :=
  fun w =>
    let '(r, s) :=
      (Bench_enter ;;
       r <- try body ;;
       Bench_exit ;;
       reraise r) (Bench_init title, w) in
    (r, snd s).

(** *** execute_bench *)

Definition drop_sql : string := "drop table pony;".
Definition create_sql : string :=
  "create table pony (id INTEGER PRIMARY KEY AUTOINCREMENT, name, age, color)".
Definition recreate_sql : string := "create table pony (id, name, age, color)".
Definition schema_sql : string := "SELECT * from sqlite_schema".
Definition insert_sql : string :=
  "insert into pony(name, age, color) VALUES (?,?,?)".
Definition count_sql : string := "SELECT count(0) as c from pony".

(** [str(x)] for an [int]. *)
Definition str (x : Z) : string := NilZero.string_of_int (Z.to_int x).

(** [x == n] for a row value [x] and an [int] [n]. *)
Definition py_eq_int (x : Value) (n : Z) : bool :=
  match x with
  | VInt m => Z.eqb m n
  | _ => false
  end.

(** [count != 2] for a count that is [None] or an [int]. *)
Definition count_ne (c : option nat) (n : nat) : bool :=
  match c with
  | None => true
  | Some m => negb (Nat.eqb m n)
  end.

(** The dict handed to [json.dumps] (the serialisation to text is left
    out). *)
Record Report : Type := mkReport {
  duration_syncing : option Time;
  duration_insert : option Time;
  duration_total : Time;
  duration_total_without_waiting : Time
}.

(** Lines 119-125, [DroppingPriorTable]. *)
Definition phase_drop_prior (client : SQLClient) : M World unit :=
  r <- execute client drop_sql None ;;
  match success r with
  | Some true =>
      print (MsgText
        "Table pony is deleted. Crashed previous time? Clean up didn't happen.")
  | _ => print (MsgText "Table pony does not exist. That's expected.")
  end.

(** Lines 127-131, [Creating]. *)
Definition phase_create (client : SQLClient) : M World unit :=
  with_bench "create table pony"
    (lift (execute client create_sql None) ;; ret tt).

(** Lines 133-137, [VerifyingRejectedRecreate]:
    [assert (await client.execute(...)).success is False], assertions
    being enabled. *)
Definition phase_verify_rejected (client : SQLClient) : M World unit :=
  with_bench "create table pony again. Should fail to pass"
    (r <- lift (execute client recreate_sql None) ;;
     match success r with
     | Some false => ret tt
     | _ => raise AssertionError
     end).

(** Lines 143-145: the [while] loop of the schema wait. *)
Fixpoint schema_loop (fuel : nat) (client : SQLClient) : M World unit :=
  match fuel with
  | O => running
  | S fuel' =>
      r <- execute client schema_sql None ;;
      if count_ne (count r) 2 then
        print (MsgText
          "Schema not synchronized. Sleeping a second before retyry.") ;;
        sleep 1 ;;
        schema_loop fuel' client
      else ret tt
  end.

(** Lines 139-145, [WaitingSchemaSync]. *)
Definition phase_schema_sync (fuel : nat) (client : SQLClient) : M World unit :=
  with_bench "checking if schema is updated" (lift (schema_loop fuel client)).

(** A coroutine made by [client.execute(sql, args)] and not yet awaited. *)
Definition Task : Type := (string * option (list Value))%type.

(** Lines 147-158: one task per [x] in [range(record_count)]. *)
Definition phase_prepare (record_count : Z) : M World (list Task) :=
  with_bench
    ("preparing insertion of " ++ str record_count
     ++ " records by creating " ++ str record_count
     ++ " tasks with insert statement.")
    (ret (map (fun x : nat =>
                 (insert_sql,
                  Some [VStr ("Pony" ++ str (Z.of_nat x));
                        VInt (Z.of_nat x * 1337);
                        VStr "blue"]))
              (seq 0 (Z.to_nat record_count)))).

(** [await asyncio.gather] of the tasks, under the schedule that runs the
    coroutines one after the other, in the order of the list; the first
    exception is the one [gather] raises.  When every coroutine returns,
    the results and the requests sent are those of any schedule; when one
    raises, asyncio has started the others already, which this schedule
    does not show. *)
Fixpoint gather (client : SQLClient) (tasks : list Task)
    : M World (list ResultObject) :=
  match tasks with
  | [] => ret []
  | (sql, args) :: rest =>
      r <- execute client sql args ;;
      rs <- gather client rest ;;
      ret (r :: rs)
  end.

(** Lines 160-164, [LoadingRecords]. *)
Definition phase_load (client : SQLClient) (record_count : Z)
    (tasks : list Task) : M World (option Time) :=
  with_bench ("Executing " ++ str record_count ++ " tasks in parallel.")
    (lift (gather client tasks) ;;
     Bench_duration).

(** [(...).records[0][key]]. *)
Definition first_record_field (key : string) (r : ResultObject)
    : Exn + Value :=
  match records r with
  | None => inl TypeError
  | Some [] => inl IndexError
  | Some (record :: _) =>
      match Dict.get key record with
      | None => inl (KeyError key)
      | Some v => inr v
      end
  end.

(** Lines 168-177: the [while True] loop of the read-back wait. *)
Fixpoint read_loop (fuel : nat) (client : SQLClient) (record_count : Z)
    : M World unit :=
  match fuel with
  | O => running
  | S fuel' =>
      r <- execute client count_sql None ;;
      records_inserted <- liftE (first_record_field "c" r) ;;
      print (MsgInsertCheck records_inserted record_count) ;;
      if py_eq_int records_inserted record_count then ret tt
      else
        sleep 2 ;;
        read_loop fuel' client record_count
  end.

(** Lines 166-178, [WaitingReadConvergence]. *)
Definition phase_read_convergence (fuel : nat) (client : SQLClient)
    (record_count : Z) : M World (option Time) :=
  with_bench "waiting until all inserted data is available for read"
    (lift (read_loop fuel client record_count) ;;
     Bench_duration).

(** Lines 180-181, [Teardown]. *)
Definition phase_teardown (client : SQLClient) : M World unit :=
  with_bench "cleaning up by dropping table pony"
    (lift (execute client drop_sql None) ;; ret tt).

(** Lines 183-191: the dict of the report, its values computed from left
    to right. *)
Definition make_report (bench_start : Time)
    (duration_insert time_waited : option Time) : M World Report :=
  t <- now ;;
  let total := t - bench_start in
  t <- now ;;
  match time_waited with
  | None => raise TypeError
  | Some waited =>
      ret (mkReport time_waited duration_insert total
             (t - bench_start - waited))
  end.

(** Lines 119-191: the block of [async with SQLClient(url) as client]. *)
Definition bench_body (fuel : nat) (record_count : Z) (bench_start : Time)
    (client : SQLClient) : M World Report :=
  phase_drop_prior client ;;
  phase_create client ;;
  phase_verify_rejected client ;;
  phase_schema_sync fuel client ;;
  tasks <- phase_prepare record_count ;;
  duration_insert <- phase_load client record_count tasks ;;
  time_waited <- phase_read_convergence fuel client record_count ;;
  phase_teardown client ;;
  make_report bench_start duration_insert time_waited.

(** [execute_bench(url, record_count)]. *)
Definition execute_bench (fuel : nat) (url : string) (record_count : Z)
    : M World Report :=
  bench_start <- now ;;
  async_with_client url (bench_body fuel record_count bench_start).

(** The run up to the second create, left out, and up to the read-back
    wait, left out: the first phases of [bench_body]. *)
Definition before_verify_rejected (client : SQLClient) : M World unit :=
  phase_drop_prior client ;;
  phase_create client.

Definition before_read_convergence (fuel : nat) (record_count : Z)
    (client : SQLClient) : M World (option Time) :=
  phase_drop_prior client ;;
  phase_create client ;;
  phase_verify_rejected client ;;
  phase_schema_sync fuel client ;;
  tasks <- phase_prepare record_count ;;
  phase_load client record_count tasks.

(** The world in which [bench_body] starts, for a run started in [w]:
    the clock was read once and the client is connected. *)
Definition at_body (url : string) (w : World) : World :=
  mkWorld (S (reads w)) (calls w) (EvConnect url :: trace w).

(** *** async_test *)

Definition insert_test_create_sql : string :=
  "create table insert_test (id INTEGER PRIMARY KEY AUTOINCREMENT, description)".
Definition insert_test_insert_sql : string :=
  "insert into insert_test(description) VALUES (?)".
Definition insert_test_select_sql : string := "select * from insert_test".
Definition insert_test_drop_sql : string := "drop table insert_test".

(** [count == 1] for a count that is [None] or an [int]. *)
Definition count_eq (c : option nat) (n : nat) : bool :=
  match c with
  | None => false
  | Some m => Nat.eqb m n
  end.

(** Lines 194-204, [async_test(url)]. *)
Definition async_test (url : string) : M World bool :=
  async_with_client url (fun client =>
    execute client insert_test_create_sql None ;;
    execute client insert_test_insert_sql (Some [VStr "test"]) ;;
    r <- execute client insert_test_select_sql None ;;
    let result := count_eq (count r) 1 in
    execute client insert_test_drop_sql None ;;
    ret result).

End Program.

(** ** Vocabulary of the properties *)

(** Every record of [o] maps each column to the row's value at the same
    position, its keys being the columns in their order; one record per
    row, and [count] their number. *)
Definition zips_columns (rs : ResultSet) (o : ResultObject) : Prop :=
  exists recs,
    records o = Some recs /\
    count o = Some (List.length recs) /\
    List.length recs = List.length (rs_rows rs) /\
    forall i row record,
      nth_error (rs_rows rs) i = Some row ->
      nth_error recs i = Some record ->
      Dict.keys record = rs_columns rs /\
      forall x c, nth_error (rs_columns rs) x = Some c ->
                  Dict.get c record = nth_error row x.

(** A result set as the client builds it: every row as long as the list
    of columns. *)
Definition well_formed (rs : ResultSet) : Prop :=
  Forall (fun row => List.length row = List.length (rs_columns rs)) (rs_rows rs).

(** The total duration is the sum of the other two. *)
Definition total_is_sum (o : ResultObject) : Prop :=
  exists r s,
    request_duration o = Some r /\
    serialization_duration o = Some s /\
    total_duration o = Some (r + s).

(** The failure result: no data, an error descriptor, [success] false. *)
Definition failure_result (explanation code : string) : ResultObject :=
  mkResultObject None None None None None
    (Some (mkError explanation code)) (Some false) None None None.

(** The sleeps of a trace, the most recent first. *)
Fixpoint sleeps (t : list Event) : list Z :=
  match t with
  | [] => []
  | EvSleep s :: rest => s :: sleeps rest
  | _ :: rest => sleeps rest
  end.

(** The statements sent in a trace, the most recent first. *)
Fixpoint dispatched (t : list Event) : list string :=
  match t with
  | [] => []
  | EvDispatch sql _ :: rest => sql :: dispatched rest
  | _ :: rest => dispatched rest
  end.

(** The most recent result the executor returned. *)
Fixpoint last_result (t : list Event) : option (string * ResultObject) :=
  match t with
  | [] => None
  | EvResult sql obj :: _ => Some (sql, obj)
  | _ :: rest => last_result rest
  end.

(** What the executor returns for an answer of the database that it does
    not let through as an exception (durations apart). *)
Definition normalized (resp : Exn + ResultSet) : option ResultObject :=
  match resp with
  | inl (LibsqlError explanation code) => Some (failure_result explanation code)
  | inl _ => None
  | inr rs =>
      match ResultObject_init (Some rs) [] with
      | inl _ => None
      | inr o => Some o
      end
  end.

(** An answer to the schema query after which the loop goes round again,
    and one after which it stops. *)
Definition schema_miss (resp : Exn + ResultSet) : bool :=
  match normalized resp with
  | Some o => count_ne (count o) 2
  | None => false
  end.

Definition schema_hit (resp : Exn + ResultSet) : bool :=
  match normalized resp with
  | Some o => negb (count_ne (count o) 2)
  | None => false
  end.

(** The same for the count query of the read-back wait. *)
Definition read_miss (record_count : Z) (resp : Exn + ResultSet) : bool :=
  match normalized resp with
  | Some o =>
      match first_record_field "c" o with
      | inr v => negb (py_eq_int v record_count)
      | inl _ => false
      end
  | None => false
  end.

Definition read_hit (record_count : Z) (resp : Exn + ResultSet) : bool :=
  match normalized resp with
  | Some o =>
      match first_record_field "c" o with
      | inr v => py_eq_int v record_count
      | inl _ => false
      end
  | None => false
  end.

(** [w'] comes after [w] with no request sent, no result returned and no
    sleep: what a timer does to the world. *)
Definition timer_only (w w' : World) : Prop :=
  calls w' = calls w /\
  (reads w <= reads w')%nat /\
  sleeps (trace w') = sleeps (trace w) /\
  dispatched (trace w') = dispatched (trace w) /\
  last_result (trace w') = last_result (trace w).

(** The instant of the i-th read of the clock after the world [w]. *)
Definition at_read (clock : nat -> Time) (w : World) (i : nat) : Time :=
  clock (reads w + i)%nat.

(** The run ended by a return. *)
Definition returned {A} (o : Outcome A) : bool :=
  match o with
  | Returned _ => true
  | _ => false
  end.

(** The world once [__aexit__] has closed the client. *)
Definition closed (w : World) : World :=
  mkWorld (reads w) (calls w) (EvClose :: trace w).

(** A result with its three durations taken off. *)
Definition untimed (o : ResultObject) : ResultObject :=
  mkResultObject (columns o) (records o) (last_insert_rowid o)
    (rows_affected o) (count o) (error o) (success o) None None None.

(** An event that is neither the opening nor the closing of a client. *)
Definition inner_event (ev : Event) : Prop :=
  match ev with
  | EvConnect _ | EvClose => False
  | _ => True
  end.

(** [w'] comes after [w]: the clock was read and requests were sent, if
    at all, and the trace grew by events that open and close no client. *)
Definition grows (w w' : World) : Prop :=
  (reads w <= reads w')%nat /\
  (calls w <= calls w')%nat /\
  exists added, trace w' = (added ++ trace w)%list /\ Forall inner_event added.

(** Code that only lets the world grow, on a state that holds a world. *)
Definition growing {S A : Type} (world_of : S -> World) (m : M S A) : Prop :=
  forall s, grows (world_of s) (world_of (snd (m s))).

(** From [w] to [w']: [n] requests sent, the sleeps [sl] and the
    statements [ds] added (the most recent first). *)
Definition did (w w' : World) (n : nat) (sl : list Z) (ds : list string)
    : Prop :=
  calls w' = (calls w + n)%nat /\
  sleeps (trace w') = (sl ++ sleeps (trace w))%list /\
  dispatched (trace w') = (ds ++ dispatched (trace w))%list.

(** A clock that never goes backwards. *)
Definition monotone (clock : nat -> Time) : Prop :=
  forall i j, (i <= j)%nat -> clock i <= clock j.

(** What the database answers to the tasks of a batch sent from request
    [k] on, as the executor normalises it. *)
Fixpoint task_answers
    (backend : nat -> string -> option (list Value) -> Exn + ResultSet)
    (k : nat) (tasks : list Task) : list (option ResultObject) :=
  match tasks with
  | [] => []
  | (sql, args) :: rest =>
      normalized (backend k sql args) :: task_answers backend (S k) rest
  end.

(** The arguments of the insert of row [x]. *)
Definition pony (x : nat) : option (list Value) :=
  Some [VStr ("Pony" ++ str (Z.of_nat x)); VInt (Z.of_nat x * 1337);
        VStr "blue"].

(** A database on which a run started at request [c0] completes: the
    first drop and the create get an answer the executor returns, the
    second create is rejected, the schema query misses [a] times then hits,
    each insert gets an answer the executor returns, the count query misses
    [b] times then hits, and the last drop gets an answer the executor
    returns. *)
Definition converging
    (backend : nat -> string -> option (list Value) -> Exn + ResultSet)
    (c0 : nat) (record_count : Z) (a b : nat) : Prop :=
  let n := Z.to_nat record_count in
  normalized (backend c0 drop_sql None) <> None /\
  normalized (backend (c0 + 1)%nat create_sql None) <> None /\
  (exists o, normalized (backend (c0 + 2)%nat recreate_sql None) = Some o /\
             success o = Some false) /\
  (forall k, (c0 + 3 <= k < c0 + 3 + a)%nat ->
             schema_miss (backend k schema_sql None) = true) /\
  schema_hit (backend (c0 + 3 + a)%nat schema_sql None) = true /\
  (forall x, (x < n)%nat ->
             normalized (backend (c0 + 4 + a + x)%nat insert_sql (pony x))
             <> None) /\
  (forall k, (c0 + 4 + a + n <= k < c0 + 4 + a + n + b)%nat ->
             read_miss record_count (backend k count_sql None) = true) /\
  read_hit record_count (backend (c0 + 4 + a + n + b)%nat count_sql None)
    = true /\
  normalized (backend (c0 + 5 + a + n + b)%nat drop_sql None) <> None.

(** ** Inputs of the examples *)

Definition connected : SQLClient := mkSQLClient "file:local.db" (Some "file:local.db").

(** A clock that moves one tick at each read, and one that stands still. *)
Definition ticking (k : nat) : Time := Z.of_nat k.
Definition frozen (k : nat) : Time := 7.

Definition empty_rs : ResultSet := mkResultSet [] [] None 0.

Definition two_objects_rs : ResultSet :=
  mkResultSet ["type"; "name"]
    [[VStr "table"; VStr "pony"]; [VStr "table"; VStr "sqlite_sequence"]]
    None 0.

Definition count_rs (n : Z) : ResultSet := mkResultSet ["c"] [[VInt n]] None 0.

(** [SELECT 1 AS a, 2 AS a]: one row, two columns of the same name. *)
Definition same_name_rs : ResultSet :=
  mkResultSet ["a"; "a"] [[VInt 1; VInt 2]] None 0.

(** A clock that is set back by one tick at each read. *)
Definition set_back (k : nat) : Time := 9 - Z.of_nat k.

(** A clock that stands still for its first three reads, then jumps. *)
Definition stalling (k : nat) : Time := if (k <? 3)%nat then 7 else 9.

Definition no_such_table : Exn :=
  LibsqlError "no such table: pony" "SQLITE_ERROR".

Definition already_exists : Exn :=
  LibsqlError "table pony already exists" "SQLITE_ERROR".

(** A database that gives the same answer to every request. *)
Definition always (resp : Exn + ResultSet)
    : nat -> string -> option (list Value) -> Exn + ResultSet :=
  fun _ _ _ => resp.

(** A database that answers the k-th request by the k-th entry of a
    script, and accepts whatever comes after the script. *)
Definition scripted (script : list (Exn + ResultSet))
    : nat -> string -> option (list Value) -> Exn + ResultSet :=
  fun k _ _ => nth k script (inr empty_rs).

(** A run with no record to insert on a database with immediate
    consistency: the first drop finds no table, the create passes, the
    second create is rejected, the schema shows the table and its
    sequence, the count is 0, the last drop passes. *)
Definition healthy_script : list (Exn + ResultSet) :=
  [inl no_such_table; inr empty_rs; inl already_exists; inr two_objects_rs;
   inr (count_rs 0); inr empty_rs].

(** The same, on a database that accepts the second create. *)
Definition lenient_script : list (Exn + ResultSet) :=
  [inl no_such_table; inr empty_rs; inr empty_rs].

(** The same as the healthy run, but the count query is answered once
    with another count and is then rejected. *)
Definition rejected_count_script : list (Exn + ResultSet) :=
  [inl no_such_table; inr empty_rs; inl already_exists; inr two_objects_rs;
   inr (count_rs 3); inl (LibsqlError "no such table: pony" "SQLITE_ERROR")].

(** A run of two records on a database that lags once on the schema and
    once on the count. *)
Definition laggy_script : list (Exn + ResultSet) :=
  [inl no_such_table; inr empty_rs; inl already_exists;
   inr (count_rs 0); inr two_objects_rs;
   inr empty_rs; inr empty_rs;
   inr (count_rs 1); inr (count_rs 2); inr empty_rs].

(** The answers to [async_test] when the inserted row is not yet there,
    and when it is. *)
Definition unseen_script : list (Exn + ResultSet) :=
  [inr empty_rs; inr empty_rs; inr (mkResultSet ["id"; "description"] [] None 0);
   inr empty_rs].

Definition seen_script : list (Exn + ResultSet) :=
  [inr empty_rs; inr empty_rs;
   inr (mkResultSet ["id"; "description"] [[VInt 1; VStr "test"]] None 0);
   inr empty_rs].

(** A count that shows one row at first, then two. *)
Definition late_count_script : list (Exn + ResultSet) :=
  [inr (count_rs 1); inr (count_rs 2)].

(** The answers to [async_test] when the connection is lost at the
    select. *)
Definition lost_at_select_script : list (Exn + ResultSet) :=
  [inr empty_rs; inr empty_rs; inl (OtherError "ConnectionError")].

(** A schema that shows one object at first, then two. *)
Definition late_schema_script : list (Exn + ResultSet) :=
  [inr (count_rs 0); inr two_objects_rs].

(** What [execute] makes of [empty_rs], durations apart. *)
Definition empty_result : ResultObject :=
  mkResultObject (Some []) (Some []) None (Some 0) (Some 0%nat) None
    (Some true) None None None.

(** A database whose schema has not caught up: the schema query shows one
    object, and the count query is rejected for want of the table. *)
Definition schema_lags : nat -> string -> option (list Value) -> Exn + ResultSet :=
  fun _ sql _ =>
    if String.eqb sql count_sql then inl no_such_table else inr (count_rs 0).

(** A database whose schema is there while the rows have not caught up:
    the schema query shows the two objects, the count query no row. *)
Definition count_lags : nat -> string -> option (list Value) -> Exn + ResultSet :=
  fun _ sql _ =>
    if String.eqb sql schema_sql then inr two_objects_rs else inr (count_rs 0).

(** A database that lags for ever: one schema object, no row. *)
Definition lagging : nat -> string -> option (list Value) -> Exn + ResultSet :=
  always (inr (count_rs 0)).

(** ** The result normaliser *)

Local Open Scope list_scope.

Section NormalizerFacts.

Lemma set_fresh (V : Type) (k : string) (v : V) (d : Dict.t V) :
  ~ In k (Dict.keys d) -> Dict.set k v d = d ++ [(k, v)].
Proof.
  induction d as [|[k' v'] d IH]; simpl; intros Hk; [reflexivity|].
  destruct (String.eqb_spec k k') as [->|Hne].
  - exfalso; apply Hk; now left.
  - f_equal. apply IH. intros Hin. apply Hk. now right.
Qed.

Lemma keys_app (V : Type) (d e : Dict.t V) :
  Dict.keys (d ++ e) = Dict.keys d ++ Dict.keys e.
Proof. unfold Dict.keys. apply map_app. Qed.

(** With distinct columns, filling from position [length pre] on appends
    the remaining columns zipped with the remaining fields. *)
Lemma fill_record_from (row : list Value) :
  forall (pre post : list string) (record : Record_),
    NoDup (pre ++ post) ->
    Dict.keys record = pre ->
    List.length row = List.length post ->
    fill_record (pre ++ post) (List.length pre) row record
    = inr (record ++ combine post row).
Proof.
  induction row as [|field rest IH]; intros pre post record Hnd Hk Hlen.
  - destruct post; [|discriminate]. simpl. now rewrite app_nil_r.
  - destruct post as [|c post]; [discriminate|]. simpl.
    rewrite nth_error_app2 by lia. rewrite Nat.sub_diag. simpl.
    rewrite set_fresh.
    + replace (pre ++ c :: post) with ((pre ++ [c]) ++ post)
        by (rewrite <- app_assoc; reflexivity).
      replace (S (List.length pre)) with (List.length (pre ++ [c]))
        by (rewrite length_app; simpl; lia).
      rewrite IH.
      * rewrite <- app_assoc. reflexivity.
      * rewrite <- app_assoc. exact Hnd.
      * rewrite keys_app, Hk. reflexivity.
      * simpl in Hlen. lia.
    + rewrite Hk. intros Hin.
      apply NoDup_remove_2 in Hnd. apply Hnd.
      apply in_or_app. now left.
Qed.

Lemma fill_records_zip (cols : list string) (rows : list (list Value)) :
  forall acc,
    NoDup cols ->
    Forall (fun row => List.length row = List.length cols) rows ->
    fill_records cols rows acc = inr (acc ++ map (combine cols) rows).
Proof.
  induction rows as [|row rows IH]; intros acc Hnd Hwf; simpl.
  - now rewrite app_nil_r.
  - inversion Hwf as [|? ? Hrow Hrows]; subst.
    pose proof (fill_record_from row [] cols [] Hnd eq_refl Hrow) as Hfill.
    simpl in Hfill. rewrite Hfill.
    rewrite IH by assumption. now rewrite <- app_assoc.
Qed.

(** Whatever the columns: [fill_records] adds one record per row. *)
Lemma fill_records_length (cols : list string) (rows : list (list Value)) :
  forall acc recs,
    fill_records cols rows acc = inr recs ->
    List.length recs = (List.length acc + List.length rows)%nat.
Proof.
  induction rows as [|row rows IH]; intros acc recs H; simpl in H.
  - inversion H; subst. simpl. lia.
  - destruct (fill_record cols 0 row []) as [e|record]; [discriminate|].
    apply IH in H. rewrite length_app in H. simpl in *. lia.
Qed.

Lemma keys_combine (cols : list string) :
  forall row : list Value,
    List.length row = List.length cols ->
    Dict.keys (combine cols row) = cols.
Proof.
  induction cols as [|c cols IH]; intros [|v row] Hlen;
    simpl in *; try discriminate; try reflexivity.
  f_equal. apply IH. lia.
Qed.

Lemma get_combine (cols : list string) :
  forall (row : list Value) x c,
    NoDup cols ->
    List.length row = List.length cols ->
    nth_error cols x = Some c ->
    Dict.get c (combine cols row) = nth_error row x.
Proof.
  induction cols as [|c0 cols IH]; intros [|v row] x c Hnd Hlen Hx;
    simpl in *; try discriminate.
  - destruct x; discriminate.
  - inversion Hnd as [|? ? Hnotin Hnd']; subst.
    destruct x as [|x]; simpl in *.
    + inversion Hx; subst. now rewrite String.eqb_refl.
    + destruct (String.eqb_spec c c0) as [->|Hne].
      * exfalso. apply Hnotin. eapply nth_error_In; eassumption.
      * apply IH; auto.
Qed.

End NormalizerFacts.

(** X3.  Whatever the result set: when [_init_result_set] returns, there
    is one record per row and [count] is the length of [records]. *)
Lemma count_is_length_of_records (self : ResultObject) (rs : ResultSet)
    (o : ResultObject) :
  _init_result_set self rs = inr o ->
  exists recs,
    records o = Some recs /\
    count o = Some (List.length recs) /\
    List.length recs = List.length (rs_rows rs).
Proof.
  unfold _init_result_set.
  destruct (fill_records (rs_columns rs) (rs_rows rs) []) as [e|recs] eqn:Hfill;
    [discriminate|].
  intros H; inversion H; subst; clear H. simpl.
  exists recs. repeat split.
  apply fill_records_length in Hfill. simpl in Hfill. exact Hfill.
Qed.

(** C8, as amended.  For a result set whose column names are pairwise
    distinct and whose rows are as long as the list of columns,
    [_init_result_set] returns; [records] holds, for each row in order, the
    columns zipped with the row (each column name mapped to the row's value
    at the same position, keys in the order of the columns), [count] is the
    length of [records] and [success] is true. *)
Theorem init_result_set_zips (self : ResultObject) (rs : ResultSet) :
  NoDup (rs_columns rs) ->
  well_formed rs ->
  exists o,
    _init_result_set self rs = inr o /\
    records o = Some (map (combine (rs_columns rs)) (rs_rows rs)) /\
    success o = Some true /\
    zips_columns rs o.
Proof.
  intros Hnd Hwf. unfold _init_result_set.
  rewrite (fill_records_zip _ _ [] Hnd Hwf). simpl.
  eexists; split; [reflexivity|]. simpl.
  split; [reflexivity|]. split; [reflexivity|].
  exists (map (combine (rs_columns rs)) (rs_rows rs)). simpl.
  split; [reflexivity|]. split; [reflexivity|].
  split; [apply length_map|].
  intros i row record Hrow Hrec.
  rewrite nth_error_map, Hrow in Hrec. simpl in Hrec.
  inversion Hrec; subst; clear Hrec.
  assert (Hlen : List.length row = List.length (rs_columns rs)).
  { unfold well_formed in Hwf. rewrite Forall_forall in Hwf.
    apply Hwf. eapply nth_error_In; eassumption. }
  split.
  - now apply keys_combine.
  - intros x c Hx. now apply get_combine.
Qed.

Lemma init_result_set_zips_witness :
  NoDup (rs_columns two_objects_rs) /\
  well_formed two_objects_rs /\
  exists o,
    _init_result_set blank two_objects_rs = inr o /\
    records o = Some (map (combine (rs_columns two_objects_rs))
                          (rs_rows two_objects_rs)) /\
    success o = Some true /\
    zips_columns two_objects_rs o.
Proof.
  assert (Hnd : NoDup (rs_columns two_objects_rs)).
  { simpl. repeat constructor; simpl; intuition discriminate. }
  assert (Hwf : well_formed two_objects_rs).
  { unfold well_formed. simpl. repeat constructor. }
  split; [exact Hnd|]. split; [exact Hwf|].
  exact (init_result_set_zips blank two_objects_rs Hnd Hwf).
Defined.

(** C8 as it is written fails when two columns bear the same name: the one
    record keeps a single entry for the name, with the value of the last
    of the two columns. *)
Lemma same_name_columns_not_zipped :
  exists o,
    ResultObject_init (Some same_name_rs) [] = inr o /\
    well_formed same_name_rs /\
    records o = Some [[("a", VInt 2)]] /\
    ~ zips_columns same_name_rs o.
Proof.
  eexists. split; [reflexivity|].
  split; [unfold well_formed; simpl; repeat constructor|].
  split; [reflexivity|].
  intros (recs & Hrecs & _ & _ & Hall). simpl in Hrecs.
  inversion Hrecs; subst; clear Hrecs.
  destruct (Hall 0%nat [VInt 1; VInt 2] [("a", VInt 2)] eq_refl eq_refl)
    as [Hkeys _].
  discriminate Hkeys.
Qed.

(** ** The executor *)

Section ExecutorFacts.

Variable clock : nat -> Time.
Variable backend : nat -> string -> option (list Value) -> Exn + ResultSet.

(** What [execute] does, by the answer of the database. *)
Lemma execute_cases (self : SQLClient) (h sql : string)
    (args : option (list Value)) (w : World) :
  client self = Some h ->
  execute clock backend self sql args w =
  match backend (calls w) sql args with
  | inl (LibsqlError explanation code) =>
      (Returned (failure_result explanation code),
       mkWorld (S (reads w)) (S (calls w))
         (EvResult sql (failure_result explanation code)
          :: EvDispatch sql args :: trace w))
  | inl e =>
      (Raised e,
       mkWorld (S (reads w)) (S (calls w)) (EvDispatch sql args :: trace w))
  | inr rs =>
      match ResultObject_init (Some rs) [] with
      | inl e =>
          (Raised e,
           mkWorld (3 + reads w) (S (calls w))
             (EvDispatch sql args :: trace w))
      | inr o =>
          let obj :=
            set_total_duration (at_read clock w 4 - at_read clock w 0)
              (set_serialization_duration (at_read clock w 3 - at_read clock w 2)
                 (set_request_duration (at_read clock w 1 - at_read clock w 0) o)) in
          (Returned obj,
           mkWorld (5 + reads w) (S (calls w))
             (EvResult sql obj :: EvDispatch sql args :: trace w))
      end
  end.
Proof.
  intros Hc. unfold execute, bind, try, now, client_execute, at_read.
  rewrite Hc. cbn -[ResultObject_init Z.sub].
  destruct (backend (calls w) sql args) as [e|rs].
  - destruct e; reflexivity.
  - cbn -[ResultObject_init Z.sub].
    destruct (ResultObject_init (Some rs) []) as [e|o]; simpl;
      [reflexivity|].
    rewrite Nat.add_0_r.
    replace (reads w + 1)%nat with (S (reads w)) by lia.
    replace (reads w + 2)%nat with (S (S (reads w))) by lia.
    replace (reads w + 3)%nat with (S (S (S (reads w)))) by lia.
    replace (reads w + 4)%nat with (S (S (S (S (reads w))))) by lia.
    reflexivity.
Qed.

(** C2.  On a connected client, when the database client raises an
    exception [e]: if [e] is a [LibsqlError], [execute] returns (it does
    not raise) the failure result: [success] false, [error] made of the
    message and the code, every data attribute [None]; if [e] is any
    other exception, [execute] raises [e]. *)
Theorem execute_backend_error (self : SQLClient) (h sql : string)
    (args : option (list Value)) (w : World) (e : Exn) :
  client self = Some h ->
  backend (calls w) sql args = inl e ->
  match e with
  | LibsqlError explanation code =>
      exists obj w',
        execute clock backend self sql args w = (Returned obj, w') /\
        success obj = Some false /\
        error obj = Some (mkError explanation code) /\
        columns obj = None /\ records obj = None /\
        last_insert_rowid obj = None /\ rows_affected obj = None /\
        count obj = None
  | _ =>
      exists w', execute clock backend self sql args w = (Raised e, w')
  end.
Proof.
  intros Hc He. rewrite (execute_cases self h sql args w Hc), He.
  destruct e; try (eexists; reflexivity).
  eexists; eexists. split; [reflexivity|]. simpl. repeat split.
Qed.

(** An exception met while the result is normalised is not caught
    either. *)
Lemma execute_normalizer_error (self : SQLClient) (h sql : string)
    (args : option (list Value)) (w : World) (rs : ResultSet) (e : Exn) :
  client self = Some h ->
  backend (calls w) sql args = inr rs ->
  ResultObject_init (Some rs) [] = inl e ->
  exists w', execute clock backend self sql args w = (Raised e, w').
Proof.
  intros Hc Hb Hn. rewrite (execute_cases self h sql args w Hc), Hb, Hn.
  eexists; reflexivity.
Qed.

(** C5, as amended.  For a successful call of [execute], with [t0 .. t4]
    the five reads of the clock it makes: the request duration is
    [t1 - t0], the serialisation duration [t3 - t2], and the total
    duration is measured end to end, [t4 - t0]; it is the sum of the two
    plus the time between the reads [t1], [t2] and between the reads [t3],
    [t4], so not less than the sum when the clock does not go backwards. *)
Theorem execute_total_duration (self : SQLClient) (h sql : string)
    (args : option (list Value)) (w w' : World) (obj : ResultObject) :
  client self = Some h ->
  execute clock backend self sql args w = (Returned obj, w') ->
  success obj = Some true ->
  let t0 := clock (reads w) in
  let t1 := clock (reads w + 1) in
  let t2 := clock (reads w + 2) in
  let t3 := clock (reads w + 3) in
  let t4 := clock (reads w + 4) in
  request_duration obj = Some (t1 - t0) /\
  serialization_duration obj = Some (t3 - t2) /\
  total_duration obj = Some (t4 - t0) /\
  t4 - t0 = (t1 - t0) + (t3 - t2) + ((t2 - t1) + (t4 - t3)) /\
  (t1 <= t2 -> t3 <= t4 -> (t1 - t0) + (t3 - t2) <= t4 - t0).
Proof.
  intros Hc Hx Hs. rewrite (execute_cases self h sql args w Hc) in Hx.
  destruct (backend (calls w) sql args) as [e|rs].
  - destruct e; inversion Hx; subst; discriminate Hs.
  - destruct (ResultObject_init (Some rs) []) as [e|o]; [discriminate|].
    inversion Hx; subst; clear Hx. unfold at_read. simpl.
    rewrite Nat.add_0_r.
    repeat split; lia.
Qed.

End ExecutorFacts.

(** C2 at work: a rejected statement, then a lost connection. *)
Lemma execute_backend_error_witness :
  (exists obj w',
     execute ticking (always (inl already_exists)) connected recreate_sql None
       world0 = (Returned obj, w') /\
     success obj = Some false /\
     error obj = Some (mkError "table pony already exists" "SQLITE_ERROR") /\
     columns obj = None /\ records obj = None /\
     last_insert_rowid obj = None /\ rows_affected obj = None /\
     count obj = None) /\
  (exists w',
     execute ticking (always (inl (OtherError "ConnectionError"))) connected
       recreate_sql None world0
     = (Raised (OtherError "ConnectionError"), w')).
Proof.
  split.
  - exact (execute_backend_error ticking (always (inl already_exists))
             connected "file:local.db" recreate_sql None world0 already_exists
             eq_refl eq_refl).
  - exact (execute_backend_error ticking
             (always (inl (OtherError "ConnectionError")))
             connected "file:local.db" recreate_sql None world0
             (OtherError "ConnectionError") eq_refl eq_refl).
Defined.

(** C5 as it is written fails as soon as the clock moves between two
    reads: with one tick per read the request takes 1, the serialisation
    1, and the total is 4. *)
Lemma total_duration_not_the_sum :
  exists obj w',
    execute ticking (always (inr empty_rs)) connected create_sql None world0
    = (Returned obj, w') /\
    success obj = Some true /\
    request_duration obj = Some 1 /\
    serialization_duration obj = Some 1 /\
    total_duration obj = Some 4 /\
    ~ total_is_sum obj.
Proof.
  eexists; eexists. split; [vm_compute; reflexivity|]. simpl.
  repeat (split; [reflexivity|]).
  intros (r & s & Hr & Hs & Ht). simpl in *.
  inversion Hr; inversion Hs; subst. discriminate Ht.
Qed.

Lemma execute_total_duration_witness :
  exists obj w',
    execute ticking (always (inr empty_rs)) connected create_sql None world0
    = (Returned obj, w') /\
    success obj = Some true /\
    request_duration obj = Some (1 - 0) /\
    serialization_duration obj = Some (3 - 2) /\
    total_duration obj = Some (4 - 0) /\
    4 - 0 = (1 - 0) + (3 - 2) + ((2 - 1) + (4 - 3)) /\
    (1 <= 2 -> 3 <= 4 -> (1 - 0) + (3 - 2) <= 4 - 0).
Proof.
  eexists; eexists. split; [vm_compute; reflexivity|]. split; [reflexivity|].
  exact (execute_total_duration ticking (always (inr empty_rs)) connected
           "file:local.db" create_sql None world0 _ _ eq_refl eq_refl eq_refl).
Defined.

(** ** The scoped timer *)

Section TimerFacts.

Variable clock : nat -> Time.

(** Reading the duration of a timer that was started and holds no
    duration yet: two reads of the clock, the first kept as the end
    instant, the second giving the duration. *)
Lemma duration_first_read (b : Bench) (w : World) (start : Time) :
  time_start b = Some start ->
  falsy (_duration b) = true ->
  Bench_duration clock (b, w)
  = (Returned (Some (clock (S (reads w)) - start)),
     (mkBench (title b) (Some start) (Some (clock (reads w)))
        (Some (clock (S (reads w)) - start)),
      mkWorld (S (S (reads w))) (calls w) (trace w))).
Proof.
  intros Hs Hd. unfold Bench_duration, bind, get_self, put_self, lift, now.
  cbn -[Z.sub]. rewrite Hd. cbn -[Z.sub]. rewrite Hs. reflexivity.
Qed.

(** A cached duration that is not zero is returned as it is: the clock
    is not read and the timer does not change. *)
Lemma duration_cached (b : Bench) (w : World) (d : Time) :
  _duration b = Some d ->
  d <> 0 ->
  Bench_duration clock (b, w) = (Returned (Some d), (b, w)).
Proof.
  intros Hd Hnz. unfold Bench_duration, bind, get_self. cbn.
  rewrite Hd. cbn. apply Z.eqb_neq in Hnz. rewrite Hnz. cbn.
  rewrite Hd. reflexivity.
Qed.

(** A timer that was never started has no start instant to subtract. *)
Lemma duration_not_started (ttl : string) (w : World) :
  fst (Bench_duration clock (Bench_init ttl, w)) = Raised TypeError.
Proof. reflexivity. Qed.

(** C7, as amended.  For a timer that has been started, by [__enter__]
    on a new timer or by [reset], reading the duration before any work is
    done does not raise, whatever the clock: it returns the time between
    the read of the clock that started the timer and the second read after
    it, which is not negative when the clock did not go backwards between
    the two. *)
Theorem duration_before_work (ttl : string) (b : Bench) (w : World) :
  exists d,
    fst ((Bench_enter clock ;; Bench_duration clock) (Bench_init ttl, w))
      = Returned (Some d) /\
    fst ((Bench_reset clock ;; Bench_duration clock) (b, w))
      = Returned (Some d) /\
    d = clock (reads w + 2) - clock (reads w) /\
    (clock (reads w) <= clock (reads w + 2) -> 0 <= d).
Proof.
  exists (clock (reads w + 2) - clock (reads w)).
  replace (reads w + 2)%nat with (S (S (reads w))) by lia.
  split; [reflexivity|]. split; [reflexivity|]. split; [reflexivity|lia].
Qed.

End TimerFacts.

(** C7 as it is written fails on a timer that was built and never started:
    [time_start] is [None] and the subtraction raises. *)
Lemma duration_of_new_timer_raises :
  Bench_duration frozen (Bench_init "create table pony", world0)
  = (Raised TypeError,
     (mkBench "create table pony" None (Some 7) None, mkWorld 2 0 [])).
Proof. reflexivity. Qed.

Lemma duration_before_work_witness :
  ticking 0 <= ticking 2 /\
  exists d,
    fst ((Bench_enter ticking ;; Bench_duration ticking)
           (Bench_init "create table pony", world0)) = Returned (Some d) /\
    fst ((Bench_reset ticking ;; Bench_duration ticking)
           (Bench_init "create table pony", world0)) = Returned (Some d) /\
    d = ticking 2 - ticking 0 /\
    0 <= d.
Proof.
  assert (H : ticking (reads world0) <= ticking (reads world0 + 2))
    by (vm_compute; discriminate).
  split; [exact H|].
  destruct (duration_before_work ticking "create table pony"
              (Bench_init "create table pony") world0)
    as (d & Henter & Hreset & Hd & Hpos).
  exists d. split; [exact Henter|]. split; [exact Hreset|].
  split; [exact Hd|exact (Hpos H)].
Defined.

(** On a clock that goes backwards the read still returns: a negative
    duration, not an exception. *)
Lemma duration_on_a_clock_set_back :
  fst ((Bench_enter set_back ;; Bench_duration set_back)
         (Bench_init "create table pony", world0))
  = Returned (Some (-2)).
Proof. reflexivity. Qed.

(** C6 at the failing input: a timer is entered and its duration read
    twice, while the clock stands still for its first three reads.  The
    first read of the duration finds 0 and stores it; the second read does
    not return the stored 0: it reads the clock again and returns 2.  So in
    the load phase with no task, the duration kept for the report is 0 and
    the one [__exit__] prints is 2. *)
Theorem zero_duration_is_read_again :
  (Bench_enter stalling ;;
   first <- Bench_duration stalling ;;
   second <- Bench_duration stalling ;;
   ret (first, second)) (Bench_init "Executing 0 tasks in parallel.", world0)
  = (Returned (Some 0, Some 2),
     (mkBench "Executing 0 tasks in parallel." (Some 7) (Some 9) (Some 2),
      mkWorld 5 0 [EvPrint (MsgBenching "Executing 0 tasks in parallel.")])) /\
  phase_load stalling lagging connected 0 [] world0
  = (Returned (Some 0),
     mkWorld 5 0 [EvPrint (MsgTook "Executing 0 tasks in parallel." 2);
                  EvPrint (MsgBenching "Executing 0 tasks in parallel.")]).
Proof. split; reflexivity. Qed.

(** ** Sequencing, [with] blocks and what a timer leaves behind *)

Section MonadFacts.

Context {S A B : Type}.

Lemma bind_returned (m : M S A) (k : A -> M S B) (s s' : S) (a : A) :
  m s = (Returned a, s') -> bind m k s = k a s'.
Proof. intros H. unfold bind. now rewrite H. Qed.

Lemma bind_raised (m : M S A) (k : A -> M S B) (s s' : S) (e : Exn) :
  m s = (Raised e, s') -> bind m k s = (Raised e, s').
Proof. intros H. unfold bind. now rewrite H. Qed.

Lemma bind_running (m : M S A) (k : A -> M S B) (s s' : S) :
  m s = (Running, s') -> bind m k s = (Running, s').
Proof. intros H. unfold bind. now rewrite H. Qed.

(** A sequence returns only if its first part returned. *)
Lemma bind_returned_inv (m : M S A) (k : A -> M S B) (s s' : S) (b : B) :
  bind m k s = (Returned b, s') ->
  exists a s1, m s = (Returned a, s1) /\ k a s1 = (Returned b, s').
Proof.
  unfold bind. destruct (m s) as [[a|e|] s1]; intros H; try discriminate.
  now exists a, s1.
Qed.

End MonadFacts.

Lemma timer_only_refl (w : World) : timer_only w w.
Proof. unfold timer_only. repeat split; auto. Qed.

Lemma timer_only_trans (w1 w2 w3 : World) :
  timer_only w1 w2 -> timer_only w2 w3 -> timer_only w1 w3.
Proof.
  unfold timer_only.
  intros (Hc & Hr & Hs & Hd & Hl) (Hc' & Hr' & Hs' & Hd' & Hl').
  repeat split; try congruence. lia.
Qed.

Section WithBenchFacts.

Variable clock : nat -> Time.

(** Reading the duration of a started timer returns a number, and leaves
    the timer started. *)
Lemma duration_started (b : Bench) (w : World) (start : Time) :
  time_start b = Some start ->
  exists d b' w',
    Bench_duration clock (b, w) = (Returned (Some d), (b', w')) /\
    time_start b' = Some start /\
    title b' = title b /\
    trace w' = trace w /\
    timer_only w w'.
Proof.
  intros Hs. destruct (falsy (_duration b)) eqn:Hf.
  - rewrite (duration_first_read clock b w start Hs Hf).
    eexists; eexists; eexists. split; [reflexivity|].
    unfold timer_only. simpl. repeat split; auto; lia.
  - destruct (_duration b) as [d|] eqn:Hd; [|discriminate].
    simpl in Hf. apply Z.eqb_neq in Hf.
    rewrite (duration_cached clock b w d Hd Hf).
    exists d, b, w. split; [reflexivity|].
    split; [exact Hs|]. split; [reflexivity|]. split; [reflexivity|].
    apply timer_only_refl.
Qed.

(** [__exit__] of a started timer does not raise, and prints. *)
Lemma exit_started (b : Bench) (w : World) (start : Time) :
  time_start b = Some start ->
  exists b' w',
    Bench_exit clock (b, w) = (Returned tt, (b', w')) /\ timer_only w w'.
Proof.
  intros Hs. unfold Bench_exit.
  destruct (duration_started b w start Hs)
    as (d1 & b1 & w1 & H1 & Hs1 & Ht1 & _ & Hto1).
  rewrite (bind_returned _ _ _ _ _ H1).
  unfold get_self at 1. unfold bind at 1. cbn [fst snd].
  destruct (duration_started b1 w1 start Hs1)
    as (d2 & b2 & w2 & H2 & Hs2 & Ht2 & Htr2 & Hto2).
  rewrite (bind_returned _ _ _ _ _ H2).
  unfold lift, print, emit. cbn [fst snd].
  eexists; eexists. split; [reflexivity|].
  eapply timer_only_trans; [exact Hto1|].
  eapply timer_only_trans; [exact Hto2|].
  unfold timer_only; simpl. repeat split; auto; lia.
Qed.

(** A [with] block ends the way its body does; what [__exit__] adds is
    the timer's only. *)
Lemma with_bench_outcome (A : Type) (ttl : string)
    (body : M (Bench * World) A) (w : World)
    (r : Outcome A) (b2 : Bench) (w2 : World) (start : Time) :
  body (entered clock ttl w) = (r, (b2, w2)) ->
  time_start b2 = Some start ->
  exists w3, with_bench clock ttl body w = (r, w3) /\ timer_only w2 w3.
Proof.
  intros Hbody Hs. unfold with_bench.
  assert (Henter : Bench_enter clock (Bench_init ttl, w)
                   = (Returned tt, entered clock ttl w)) by reflexivity.
  rewrite (bind_returned _ _ _ _ _ Henter).
  unfold bind at 1, try. rewrite Hbody.
  destruct (exit_started b2 w2 start Hs) as (b3 & w3 & Hexit & Hto).
  destruct r as [a|e|].
  - rewrite (bind_returned _ _ _ _ _ Hexit). simpl.
    exists w3. split; [reflexivity|exact Hto].
  - rewrite (bind_returned _ _ _ _ _ Hexit). simpl.
    exists w3. split; [reflexivity|exact Hto].
  - exists w2. split; [reflexivity|apply timer_only_refl].
Qed.

(** A body that starts by something that does not touch the timer. *)
Lemma lift_bind (A B : Type) (m : M World A) (k : A -> M (Bench * World) B)
    (b : Bench) (w : World) :
  bind (lift m) k (b, w) =
  match m w with
  | (Returned a, w') => k a (b, w')
  | (Raised e, w') => (Raised e, (b, w'))
  | (Running, w') => (Running, (b, w'))
  end.
Proof.
  unfold bind, lift. simpl. destruct (m w) as [[a|e|] w']; reflexivity.
Qed.

End WithBenchFacts.

(** ** The two polling loops *)

Section PollerFacts.

Variable clock : nat -> Time.
Variable backend : nat -> string -> option (list Value) -> Exn + ResultSet.

Variable self : SQLClient.
Variable handle : string.
Hypothesis is_connected : client self = Some handle.

(** [execute] returns exactly on the answers [normalized] keeps, with
    the attributes [normalized] gives; on the others it raises. *)
Lemma execute_normalized (sql : string) (args : option (list Value))
    (w : World) :
  match normalized (backend (calls w) sql args) with
  | Some o =>
      exists obj w',
        execute clock backend self sql args w = (Returned obj, w') /\
        count obj = count o /\
        records obj = records o /\
        success obj = success o /\
        calls w' = S (calls w) /\
        trace w' = EvResult sql obj :: EvDispatch sql args :: trace w
  | None =>
      exists e w',
        execute clock backend self sql args w = (Raised e, w') /\
        calls w' = S (calls w) /\
        trace w' = EvDispatch sql args :: trace w
  end.
Proof.
  rewrite (execute_cases clock backend self handle sql args w is_connected).
  unfold normalized.
  destruct (backend (calls w) sql args) as [e|rs].
  - destruct e;
      try (eexists; eexists; split; [reflexivity|]; split; reflexivity).
    eexists; eexists. split; [reflexivity|]. repeat split.
  - destruct (ResultObject_init (Some rs) []) as [e|o].
    + eexists; eexists. split; [reflexivity|]. split; reflexivity.
    + eexists; eexists. split; [reflexivity|]. repeat split.
Qed.

(** The world after an attempt that missed: the result, the message,
    the sleep. *)
Lemma schema_miss_step (w : World) :
  schema_miss (backend (calls w) schema_sql None) = true ->
  exists w',
    (forall fuel,
       schema_loop clock backend (S fuel) self w
       = schema_loop clock backend fuel self w') /\
    calls w' = S (calls w) /\
    sleeps (trace w') = 1 :: sleeps (trace w).
Proof.
  unfold schema_miss. intros Hmiss.
  pose proof (execute_normalized schema_sql None w) as Hx.
  destruct (normalized (backend (calls w) schema_sql None)) as [o|];
    [|discriminate].
  destruct Hx as (obj & w1 & Hx & Hcount & _ & _ & Hcalls & Htrace).
  exists (mkWorld (reads w1) (calls w1)
            (EvSleep 1
             :: EvPrint (MsgText
                  "Schema not synchronized. Sleeping a second before retyry.")
             :: trace w1)).
  split; [|split].
  - intros fuel. simpl. rewrite (bind_returned _ _ _ _ _ Hx).
    rewrite Hcount, Hmiss. reflexivity.
  - simpl. exact Hcalls.
  - simpl. rewrite Htrace. reflexivity.
Qed.

Lemma schema_hit_step (w : World) :
  schema_hit (backend (calls w) schema_sql None) = true ->
  exists obj w',
    (forall fuel,
       schema_loop clock backend (S fuel) self w = (Returned tt, w')) /\
    last_result (trace w') = Some (schema_sql, obj) /\
    count obj = Some 2%nat /\
    calls w' = S (calls w) /\
    sleeps (trace w') = sleeps (trace w).
Proof.
  unfold schema_hit. intros Hhit.
  pose proof (execute_normalized schema_sql None w) as Hx.
  destruct (normalized (backend (calls w) schema_sql None)) as [o|];
    [|discriminate].
  destruct Hx as (obj & w1 & Hx & Hcount & _ & _ & Hcalls & Htrace).
  apply negb_true_iff in Hhit.
  exists obj, w1. split; [|split; [|split; [|split]]].
  - intros fuel. simpl. rewrite (bind_returned _ _ _ _ _ Hx).
    rewrite Hcount, Hhit. reflexivity.
  - rewrite Htrace. reflexivity.
  - rewrite Hcount. destruct (count o) as [[|[|[|m]]]|]; simpl in Hhit;
      try discriminate. reflexivity.
  - exact Hcalls.
  - rewrite Htrace. reflexivity.
Qed.

(** One attempt, seen alone: the loop returns exactly on a hit. *)
Lemma schema_attempt_decides (w : World) :
  fst (schema_loop clock backend 1 self w) = Returned tt
  <-> schema_hit (backend (calls w) schema_sql None) = true.
Proof.
  split.
  - unfold schema_hit. simpl.
    pose proof (execute_normalized schema_sql None w) as Hx.
    destruct (normalized (backend (calls w) schema_sql None)) as [o|].
    + destruct Hx as (obj & w1 & Hx & Hcount & _).
      rewrite (bind_returned _ _ _ _ _ Hx), Hcount.
      destruct (count_ne (count o) 2); [discriminate|reflexivity].
    + destruct Hx as (e & w1 & Hx & _).
      rewrite (bind_raised _ _ _ _ _ Hx). discriminate.
  - intros Hhit. destruct (schema_hit_step w Hhit) as (obj & w' & Hrun & _).
    now rewrite Hrun.
Qed.

(** As long as the answers miss, the loop goes on: [n] misses use up [n]
    units of fuel, send [n] requests and sleep [n] times one second. *)
Lemma schema_misses (n : nat) :
  forall w,
    (forall k, (calls w <= k < calls w + n)%nat ->
               schema_miss (backend k schema_sql None) = true) ->
    exists w',
      (forall m,
         schema_loop clock backend (n + m) self w
         = schema_loop clock backend m self w') /\
      calls w' = (calls w + n)%nat /\
      sleeps (trace w') = repeat 1 n ++ sleeps (trace w).
Proof.
  induction n as [|n IH]; intros w Hall.
  - exists w. repeat split; auto.
  - destruct (schema_miss_step w) as (w1 & Hstep & Hcalls & Hsleeps).
    { apply Hall. lia. }
    destruct (IH w1) as (w' & Hrest & Hcalls' & Hsleeps').
    { intros k Hk. apply Hall. lia. }
    exists w'. split; [|split].
    + intros m. change (S n + m)%nat with (S (n + m)).
      rewrite Hstep. apply Hrest.
    + lia.
    + rewrite Hsleeps', Hsleeps.
      change (repeat 1 (S n)) with (1 :: repeat 1 n).
      rewrite (repeat_cons n 1). rewrite <- app_assoc. reflexivity.
Qed.

(** The observed count only depends on [records]. *)
Lemma first_record_field_records (key : string) (a b : ResultObject) :
  records a = records b ->
  first_record_field key a = first_record_field key b.
Proof. unfold first_record_field. now intros ->. Qed.

Lemma read_miss_step (record_count : Z) (w : World) :
  read_miss record_count (backend (calls w) count_sql None) = true ->
  exists w',
    (forall fuel,
       read_loop clock backend (S fuel) self record_count w
       = read_loop clock backend fuel self record_count w') /\
    calls w' = S (calls w) /\
    sleeps (trace w') = 2 :: sleeps (trace w).
Proof.
  unfold read_miss. intros Hmiss.
  pose proof (execute_normalized count_sql None w) as Hx.
  destruct (normalized (backend (calls w) count_sql None)) as [o|];
    [|discriminate].
  destruct Hx as (obj & w1 & Hx & _ & Hrecords & _ & Hcalls & Htrace).
  destruct (first_record_field "c" o) as [e|v] eqn:Hfield; [discriminate|].
  apply negb_true_iff in Hmiss.
  exists (mkWorld (reads w1) (calls w1)
            (EvSleep 2 :: EvPrint (MsgInsertCheck v record_count)
             :: trace w1)).
  split; [|split].
  - intros fuel. simpl. rewrite (bind_returned _ _ _ _ _ Hx).
    rewrite (first_record_field_records "c" obj o Hrecords), Hfield.
    unfold liftE, reraise, print, sleep, emit, bind, ret. simpl.
    rewrite Hmiss. reflexivity.
  - simpl. exact Hcalls.
  - simpl. rewrite Htrace. reflexivity.
Qed.

Lemma read_hit_step (record_count : Z) (w : World) :
  read_hit record_count (backend (calls w) count_sql None) = true ->
  exists obj w',
    (forall fuel,
       read_loop clock backend (S fuel) self record_count w
       = (Returned tt, w')) /\
    last_result (trace w') = Some (count_sql, obj) /\
    first_record_field "c" obj = inr (VInt record_count) /\
    calls w' = S (calls w) /\
    sleeps (trace w') = sleeps (trace w).
Proof.
  unfold read_hit. intros Hhit.
  pose proof (execute_normalized count_sql None w) as Hx.
  destruct (normalized (backend (calls w) count_sql None)) as [o|];
    [|discriminate].
  destruct Hx as (obj & w1 & Hx & _ & Hrecords & _ & Hcalls & Htrace).
  destruct (first_record_field "c" o) as [e|v] eqn:Hfield; [discriminate|].
  exists obj.
  exists (mkWorld (reads w1) (calls w1)
            (EvPrint (MsgInsertCheck v record_count) :: trace w1)).
  split; [|split; [|split; [|split]]].
  - intros fuel. simpl. rewrite (bind_returned _ _ _ _ _ Hx).
    rewrite (first_record_field_records "c" obj o Hrecords), Hfield.
    unfold liftE, reraise, print, sleep, emit, bind, ret. simpl.
    rewrite Hhit. reflexivity.
  - simpl. rewrite Htrace. reflexivity.
  - rewrite (first_record_field_records "c" obj o Hrecords), Hfield.
    destruct v; simpl in Hhit; try discriminate.
    apply Z.eqb_eq in Hhit. now subst.
  - simpl. exact Hcalls.
  - simpl. rewrite Htrace. reflexivity.
Qed.

(** An attempt whose query the database rejects: the result has no
    records, and taking its first record raises. *)
Lemma read_failed_step (record_count : Z) (w : World)
    (explanation code : string) :
  backend (calls w) count_sql None = inl (LibsqlError explanation code) ->
  exists w',
    (forall fuel,
       read_loop clock backend (S fuel) self record_count w
       = (Raised TypeError, w')) /\
    trace w' = EvResult count_sql (failure_result explanation code)
               :: EvDispatch count_sql None :: trace w /\
    calls w' = S (calls w).
Proof.
  intros Hb.
  pose proof (execute_cases clock backend self handle count_sql None w
                is_connected) as Hx.
  rewrite Hb in Hx.
  eexists. split; [|split].
  - intros fuel. simpl. rewrite (bind_returned _ _ _ _ _ Hx). reflexivity.
  - reflexivity.
  - reflexivity.
Qed.

Lemma read_attempt_decides (record_count : Z) (w : World) :
  fst (read_loop clock backend 1 self record_count w) = Returned tt
  <-> read_hit record_count (backend (calls w) count_sql None) = true.
Proof.
  split.
  - unfold read_hit. simpl.
    pose proof (execute_normalized count_sql None w) as Hx.
    destruct (normalized (backend (calls w) count_sql None)) as [o|].
    + destruct Hx as (obj & w1 & Hx & _ & Hrecords & _).
      rewrite (bind_returned _ _ _ _ _ Hx).
      rewrite (first_record_field_records "c" obj o Hrecords).
      destruct (first_record_field "c" o) as [e|v]; [discriminate|].
      unfold liftE, reraise, print, sleep, emit, bind, ret, running. simpl.
      destruct (py_eq_int v record_count); [reflexivity|discriminate].
    + destruct Hx as (e & w1 & Hx & _).
      rewrite (bind_raised _ _ _ _ _ Hx). discriminate.
  - intros Hhit.
    destruct (read_hit_step record_count w Hhit) as (obj & w' & Hrun & _).
    now rewrite Hrun.
Qed.

Lemma read_misses (record_count : Z) (n : nat) :
  forall w,
    (forall k, (calls w <= k < calls w + n)%nat ->
               read_miss record_count (backend k count_sql None) = true) ->
    exists w',
      (forall m,
         read_loop clock backend (n + m) self record_count w
         = read_loop clock backend m self record_count w') /\
      calls w' = (calls w + n)%nat /\
      sleeps (trace w') = repeat 2 n ++ sleeps (trace w).
Proof.
  induction n as [|n IH]; intros w Hall.
  - exists w. repeat split; auto.
  - destruct (read_miss_step record_count w) as (w1 & Hstep & Hcalls & Hsleeps).
    { apply Hall. lia. }
    destruct (IH w1) as (w' & Hrest & Hcalls' & Hsleeps').
    { intros k Hk. apply Hall. lia. }
    exists w'. split; [|split].
    + intros m. change (S n + m)%nat with (S (n + m)).
      rewrite Hstep. apply Hrest.
    + lia.
    + rewrite Hsleeps', Hsleeps.
      change (repeat 2 (S n)) with (2 :: repeat 2 n).
      rewrite (repeat_cons n 2). rewrite <- app_assoc. reflexivity.
Qed.

(** When the answers come to a hit after [n] misses, any fuel above [n]
    lets the loop return, after [n] sleeps. *)
Lemma schema_loop_converges (n fuel : nat) (w : World) :
  (forall k, (calls w <= k < calls w + n)%nat ->
             schema_miss (backend k schema_sql None) = true) ->
  schema_hit (backend (calls w + n) schema_sql None) = true ->
  (n < fuel)%nat ->
  exists obj w',
    schema_loop clock backend fuel self w = (Returned tt, w') /\
    last_result (trace w') = Some (schema_sql, obj) /\
    count obj = Some 2%nat /\
    sleeps (trace w') = repeat 1 n ++ sleeps (trace w).
Proof.
  intros Hmiss Hhit Hfuel.
  destruct (schema_misses n w Hmiss) as (w1 & Hrest & Hcalls & Hsleeps).
  rewrite <- Hcalls in Hhit.
  destruct (schema_hit_step w1 Hhit) as (obj & w' & Hrun & Hlast & Hc & _ & Hs).
  exists obj, w'. split; [|split; [|split]]; auto.
  - replace fuel with (n + S (fuel - S n))%nat by lia.
    rewrite Hrest. apply Hrun.
  - now rewrite Hs.
Qed.

Lemma read_loop_converges (record_count : Z) (n fuel : nat) (w : World) :
  (forall k, (calls w <= k < calls w + n)%nat ->
             read_miss record_count (backend k count_sql None) = true) ->
  read_hit record_count (backend (calls w + n) count_sql None) = true ->
  (n < fuel)%nat ->
  exists obj w',
    read_loop clock backend fuel self record_count w = (Returned tt, w') /\
    last_result (trace w') = Some (count_sql, obj) /\
    first_record_field "c" obj = inr (VInt record_count) /\
    sleeps (trace w') = repeat 2 n ++ sleeps (trace w).
Proof.
  intros Hmiss Hhit Hfuel.
  destruct (read_misses record_count n w Hmiss)
    as (w1 & Hrest & Hcalls & Hsleeps).
  rewrite <- Hcalls in Hhit.
  destruct (read_hit_step record_count w1 Hhit)
    as (obj & w' & Hrun & Hlast & Hc & _ & Hs).
  exists obj, w'. split; [|split; [|split]]; auto.
  - replace fuel with (n + S (fuel - S n))%nat by lia.
    rewrite Hrest. apply Hrun.
  - now rewrite Hs.
Qed.

(** C3.  On a connected client, for every number [n] of attempts, and
    for each of the two loops on its own: if the first [n] answers to the
    schema query all miss, the schema loop is still running after them,
    having sent [n] requests and slept [n] times one second, and the next
    attempt ends the loop by a return exactly when its observed value is
    the expected one; the same for the read-back loop, the count query and
    two seconds.  No number of misses makes a loop give up. *)
Theorem poll_loops_unbounded (record_count : Z) (n : nat) (w : World) :
  ((forall k, (calls w <= k < calls w + n)%nat ->
              schema_miss (backend k schema_sql None) = true) ->
   exists w',
     schema_loop clock backend n self w = (Running, w') /\
     calls w' = (calls w + n)%nat /\
     sleeps (trace w') = repeat 1 n ++ sleeps (trace w) /\
     (fst (schema_loop clock backend (S n) self w) = Returned tt
      <-> schema_hit (backend (calls w + n) schema_sql None) = true)) /\
  ((forall k, (calls w <= k < calls w + n)%nat ->
              read_miss record_count (backend k count_sql None) = true) ->
   exists w',
     read_loop clock backend n self record_count w = (Running, w') /\
     calls w' = (calls w + n)%nat /\
     sleeps (trace w') = repeat 2 n ++ sleeps (trace w) /\
     (fst (read_loop clock backend (S n) self record_count w) = Returned tt
      <-> read_hit record_count (backend (calls w + n) count_sql None)
          = true)).
Proof.
  split.
  - intros Hschema.
    destruct (schema_misses n w Hschema) as (w' & Hrest & Hcalls & Hsleeps).
    exists w'. split; [|split; [|split]]; auto.
    + rewrite <- (Nat.add_0_r n) at 1. rewrite Hrest. reflexivity.
    + replace (S n) with (n + 1)%nat by lia.
      rewrite Hrest, <- Hcalls. apply schema_attempt_decides.
  - intros Hread.
    destruct (read_misses record_count n w Hread)
      as (w' & Hrest & Hcalls & Hsleeps).
    exists w'. split; [|split; [|split]]; auto.
    + rewrite <- (Nat.add_0_r n) at 1. rewrite Hrest. reflexivity.
    + replace (S n) with (n + 1)%nat by lia.
      rewrite Hrest, <- Hcalls. apply read_attempt_decides.
Qed.

End PollerFacts.

(** A backend that never converges: whatever the fuel, the schema loop is
    still running when the fuel is spent. *)
Lemma schema_loop_runs_forever (clock : nat -> Time)
    (backend : nat -> string -> option (list Value) -> Exn + ResultSet)
    (self : SQLClient) (handle : string) :
  client self = Some handle ->
  (forall k, schema_miss (backend k schema_sql None) = true) ->
  forall fuel w, fst (schema_loop clock backend fuel self w) = Running.
Proof.
  intros Hc Hall fuel w.
  destruct (schema_misses clock backend self handle Hc fuel w)
    as (w' & Hrest & _); [intros; apply Hall|].
  rewrite <- (Nat.add_0_r fuel). rewrite Hrest. reflexivity.
Qed.

(** ** The phases and the run *)

Section OrchestratorFacts.

Variable clock : nat -> Time.
Variable backend : nat -> string -> option (list Value) -> Exn + ResultSet.

(** When [execute] returns, the result is the last event of the trace. *)
Lemma execute_returned_trace (self : SQLClient) (sql : string)
    (args : option (list Value)) (w w' : World) (obj : ResultObject) :
  execute clock backend self sql args w = (Returned obj, w') ->
  trace w' = EvResult sql obj :: EvDispatch sql args :: trace w.
Proof.
  destruct (client self) as [h|] eqn:Hc.
  - rewrite (execute_cases clock backend self h sql args w Hc).
    destruct (backend (calls w) sql args) as [e|rs].
    + destruct e; intros H; inversion H; reflexivity.
    + destruct (ResultObject_init (Some rs) []) as [e|o];
        intros H; inversion H; reflexivity.
  - unfold execute, bind, try, now. rewrite Hc. simpl. discriminate.
Qed.

(** The schema loop returns only after a result of count 2. *)
Lemma schema_loop_returned (self : SQLClient) (fuel : nat) :
  forall w w',
    schema_loop clock backend fuel self w = (Returned tt, w') ->
    exists obj,
      last_result (trace w') = Some (schema_sql, obj) /\
      count obj = Some 2%nat.
Proof.
  induction fuel as [|fuel IH]; intros w w' H; simpl in H;
    [discriminate|].
  apply bind_returned_inv in H. destruct H as (obj & w1 & Hx & H).
  destruct (count_ne (count obj) 2) eqn:Hne.
  - unfold print, sleep, emit, bind in H. simpl in H. now apply IH in H.
  - inversion H; subst; clear H. exists obj.
    rewrite (execute_returned_trace _ _ _ _ _ _ Hx). split; [reflexivity|].
    destruct (count obj) as [[|[|[|m]]]|]; simpl in Hne;
      try discriminate. reflexivity.
Qed.

(** C9.  Whenever the schema wait completes, the most recent result the
    executor returned is the one of the schema query, and its count is
    exactly 2. *)
Theorem schema_sync_completes_on_two (self : SQLClient) (fuel : nat)
    (w w' : World) :
  phase_schema_sync clock backend fuel self w = (Returned tt, w') ->
  exists obj,
    last_result (trace w') = Some (schema_sql, obj) /\
    count obj = Some 2%nat.
Proof.
  unfold phase_schema_sync. intros H.
  destruct (schema_loop clock backend fuel self
              (snd (entered clock "checking if schema is updated" w)))
    as [r w2] eqn:Hloop.
  destruct (with_bench_outcome clock unit "checking if schema is updated"
              (lift (schema_loop clock backend fuel self)) w
              r (fst (entered clock "checking if schema is updated" w)) w2
              (clock (reads w)))
    as (w3 & Hwith & Hto).
  { unfold lift. rewrite Hloop. reflexivity. }
  { reflexivity. }
  rewrite Hwith in H. inversion H; subst; clear H.
  destruct (schema_loop_returned self fuel _ _ Hloop) as (obj & Hlast & Hc).
  exists obj. split; [|exact Hc].
  destruct Hto as (_ & _ & _ & _ & Hl). now rewrite Hl.
Qed.

(** A run is its body between connecting and closing: the client is
    closed whether the body returned or raised. *)
Lemma execute_bench_unfold (fuel : nat) (url : string) (record_count : Z)
    (w : World) :
  execute_bench clock backend fuel url record_count w =
  match bench_body clock backend fuel record_count (clock (reads w))
          (mkSQLClient url (Some url)) (at_body url w) with
  | (Returned r, w2) => (Returned r, closed w2)
  | (Raised e, w2) => (Raised e, closed w2)
  | (Running, w2) => (Running, w2)
  end.
Proof.
  unfold execute_bench, async_with_client, bind, now, __aenter__, __aexit__,
    try, emit, SQLClient_init, at_body, closed, ret, bind.
  cbn -[bench_body].
  destruct (bench_body clock backend fuel record_count (clock (reads w))
              (mkSQLClient url (Some url))
              (mkWorld (S (reads w)) (calls w) (EvConnect url :: trace w)))
    as [[r|e|] w2]; reflexivity.
Qed.

(** The body goes through its first two phases, then the rest. *)
Lemma bench_body_after_create (fuel : nat) (record_count : Z)
    (bench_start : Time) (self : SQLClient) (w w2 : World) :
  before_verify_rejected clock backend self w = (Returned tt, w2) ->
  forall e w3,
    phase_verify_rejected clock backend self w2 = (Raised e, w3) ->
    bench_body clock backend fuel record_count bench_start self w
    = (Raised e, w3).
Proof.
  unfold before_verify_rejected, bench_body. intros Hbefore e w3 Hverify.
  apply bind_returned_inv in Hbefore.
  destruct Hbefore as ([] & wa & Hdrop & Hcreate).
  rewrite (bind_returned _ _ _ _ _ Hdrop).
  rewrite (bind_returned _ _ _ _ _ Hcreate).
  apply bind_raised. exact Hverify.
Qed.

(** The body goes through the phases before the read-back wait, then
    the rest. *)
Lemma bench_body_after_load (fuel : nat) (record_count : Z)
    (bench_start : Time) (self : SQLClient) (w w2 : World)
    (duration_insert : option Time) :
  before_read_convergence clock backend fuel record_count self w
  = (Returned duration_insert, w2) ->
  bench_body clock backend fuel record_count bench_start self w
  = (time_waited <-
       phase_read_convergence clock backend fuel self record_count ;;
     phase_teardown clock backend self ;;
     make_report clock bench_start duration_insert time_waited) w2.
Proof.
  unfold before_read_convergence, bench_body. intros H.
  apply bind_returned_inv in H. destruct H as ([] & wa & Hdrop & H).
  apply bind_returned_inv in H. destruct H as ([] & wb & Hcreate & H).
  apply bind_returned_inv in H. destruct H as ([] & wc & Hverify & H).
  apply bind_returned_inv in H. destruct H as ([] & wd & Hsync & H).
  apply bind_returned_inv in H. destruct H as (tasks & we & Hprep & Hload).
  rewrite (bind_returned _ _ _ _ _ Hdrop).
  rewrite (bind_returned _ _ _ _ _ Hcreate).
  rewrite (bind_returned _ _ _ _ _ Hverify).
  rewrite (bind_returned _ _ _ _ _ Hsync).
  rewrite (bind_returned _ _ _ _ _ Hprep).
  rewrite (bind_returned _ _ _ _ _ Hload).
  reflexivity.
Qed.

(** The second create: the phase returns when the result reports a
    failure, and raises [AssertionError] when it does not; either way
    the statement sent is [recreate_sql], and it is the last one. *)
Lemma verify_rejected_outcome (self : SQLClient) (h : string) (w : World)
    (o : ResultObject) :
  client self = Some h ->
  normalized (backend (calls w) recreate_sql None) = Some o ->
  exists w',
    phase_verify_rejected clock backend self w
    = (match success o with
       | Some false => Returned tt
       | _ => Raised AssertionError
       end, w') /\
    dispatched (trace w') = recreate_sql :: dispatched (trace w) /\
    calls w' = S (calls w).
Proof.
  intros Hc Hn. unfold phase_verify_rejected.
  set (ttl := "create table pony again. Should fail to pass").
  pose proof (execute_normalized clock backend self h Hc recreate_sql None
                (snd (entered clock ttl w))) as Hx.
  cbn [entered snd calls] in Hx. rewrite Hn in Hx.
  destruct Hx as (obj & w1 & Hx & _ & _ & Hsuccess & Hcalls & Htrace).
  match goal with
  | |- context [with_bench clock ttl ?body w] =>
      destruct (with_bench_outcome clock unit ttl body w
                  (match success o with
                   | Some false => Returned tt
                   | _ => Raised AssertionError
                   end)
                  (fst (entered clock ttl w)) w1 (clock (reads w)))
        as (w3 & Hwith & Hto)
  end.
  { unfold entered. rewrite lift_bind. cbn [fst snd]. rewrite Hx.
    rewrite Hsuccess. destruct (success o) as [[|]|]; reflexivity. }
  { reflexivity. }
  exists w3. split; [exact Hwith|].
  destruct Hto as (Hc3 & _ & _ & Hd3 & _).
  split.
  - rewrite Hd3, Htrace. reflexivity.
  - rewrite Hc3. exact Hcalls.
Qed.

(** The read-back wait when the count query, after [n] misses, is
    rejected by the database. *)
Lemma read_convergence_rejected (self : SQLClient) (h : string)
    (fuel n : nat) (record_count : Z) (w : World)
    (explanation code : string) :
  client self = Some h ->
  (forall k, (calls w <= k < calls w + n)%nat ->
             read_miss record_count (backend k count_sql None) = true) ->
  backend (calls w + n) count_sql None
    = inl (LibsqlError explanation code) ->
  (n < fuel)%nat ->
  exists w',
    phase_read_convergence clock backend fuel self record_count w
    = (Raised TypeError, w') /\
    last_result (trace w')
    = Some (count_sql, failure_result explanation code) /\
    sleeps (trace w') = repeat 2 n ++ sleeps (trace w) /\
    calls w' = S (calls w + n).
Proof.
  intros Hc Hmiss Hfail Hfuel. unfold phase_read_convergence.
  set (ttl := "waiting until all inserted data is available for read").
  destruct (read_misses clock backend self h Hc record_count n
              (snd (entered clock ttl w)))
    as (w1 & Hrest & Hcalls1 & Hsleeps1); [exact Hmiss|].
  cbn [entered snd calls trace sleeps] in Hcalls1, Hsleeps1.
  destruct (read_failed_step clock backend self h Hc record_count w1
              explanation code)
    as (w2 & Hstep & Htrace2 & Hcalls2).
  { rewrite Hcalls1. exact Hfail. }
  assert (Hloop : read_loop clock backend fuel self record_count
                    (snd (entered clock ttl w)) = (Raised TypeError, w2)).
  { replace fuel with (n + S (fuel - S n))%nat by lia.
    rewrite Hrest. apply Hstep. }
  match goal with
  | |- context [with_bench clock ttl ?body w] =>
      destruct (with_bench_outcome clock (option Time) ttl body w
                  (Raised TypeError)
                  (fst (entered clock ttl w)) w2 (clock (reads w)))
        as (w3 & Hwith & Hto)
  end.
  { rewrite (surjective_pairing (entered clock ttl w)) at 1.
    rewrite lift_bind. rewrite Hloop. reflexivity. }
  { reflexivity. }
  exists w3. split; [exact Hwith|].
  destruct Hto as (Hc3 & _ & Hs3 & _ & Hl3).
  split; [|split].
  - rewrite Hl3, Htrace2. reflexivity.
  - rewrite Hs3, Htrace2. simpl. exact Hsleeps1.
  - rewrite Hc3, Hcalls2, Hcalls1. reflexivity.
Qed.

(** C4, as amended.  After the drop and the create, the orchestrator
    sends a second create statement for the same table, which is not the
    statement of the create phase (it leaves out the constraints of the
    [id] column), and asserts that the result reports a failure: when the
    result does not, the run raises [AssertionError], and the second
    create is the last statement it sent. *)
Theorem recreate_must_fail (fuel : nat) (url : string) (record_count : Z)
    (w : World) (o : ResultObject) :
  let self := mkSQLClient url (Some url) in
  let before := before_verify_rejected clock backend self (at_body url w) in
  fst before = Returned tt ->
  normalized (backend (calls (snd before)) recreate_sql None) = Some o ->
  success o <> Some false ->
  recreate_sql <> create_sql /\
  exists w',
    execute_bench clock backend fuel url record_count w
    = (Raised AssertionError, w') /\
    dispatched (trace w') = recreate_sql :: dispatched (trace (snd before)) /\
    calls w' = S (calls (snd before)).
Proof.
  intros self before Hbefore Hn Hsuccess.
  split; [discriminate|].
  destruct before as [r w2] eqn:Hb. simpl in Hbefore, Hn. subst r.
  destruct (verify_rejected_outcome self url w2 o eq_refl Hn)
    as (w3 & Hverify & Hd & Hcalls).
  assert (Hraise : phase_verify_rejected clock backend self w2
                   = (Raised AssertionError, w3)).
  { rewrite Hverify. destruct (success o) as [[|]|]; try reflexivity.
    now contradiction Hsuccess. }
  rewrite execute_bench_unfold.
  fold self.
  rewrite (bench_body_after_create fuel record_count (clock (reads w)) self
             (at_body url w) w2 Hb AssertionError w3 Hraise).
  exists (closed w3). split; [reflexivity|]. simpl. split; assumption.
Qed.

(** C10.  When the read-back wait is reached and, after [n] attempts
    that missed, the count query is rejected by the database: the result
    the executor returns has no records ([None]), taking the observed
    count from it raises [TypeError], and the run ends by that exception;
    the rejected query is the last request of the run, and no sleep
    follows it. *)
Theorem rejected_poll_aborts (fuel n : nat) (url : string)
    (record_count : Z) (w : World) (explanation code : string) :
  let self := mkSQLClient url (Some url) in
  let before :=
    before_read_convergence clock backend fuel record_count self
      (at_body url w) in
  returned (fst before) = true ->
  (forall k, (calls (snd before) <= k < calls (snd before) + n)%nat ->
             read_miss record_count (backend k count_sql None) = true) ->
  backend (calls (snd before) + n) count_sql None
    = inl (LibsqlError explanation code) ->
  (n < fuel)%nat ->
  records (failure_result explanation code) = None /\
  first_record_field "c" (failure_result explanation code) = inl TypeError /\
  exists w',
    execute_bench clock backend fuel url record_count w
    = (Raised TypeError, w') /\
    last_result (trace w')
    = Some (count_sql, failure_result explanation code) /\
    sleeps (trace w') = repeat 2 n ++ sleeps (trace (snd before)) /\
    calls w' = S (calls (snd before) + n).
Proof.
  intros self before Hbefore Hmiss Hfail Hfuel.
  split; [reflexivity|]. split; [reflexivity|].
  destruct before as [r w2] eqn:Hb. simpl in Hbefore, Hmiss, Hfail.
  destruct r as [duration_insert| |]; try discriminate.
  destruct (read_convergence_rejected self url fuel n record_count w2
              explanation code eq_refl Hmiss Hfail Hfuel)
    as (w3 & Hphase & Hlast & Hsleeps & Hcalls).
  rewrite execute_bench_unfold. fold self.
  rewrite (bench_body_after_load fuel record_count (clock (reads w)) self
             (at_body url w) w2 duration_insert Hb).
  rewrite (bind_raised _ _ _ _ _ Hphase).
  exists (closed w3). split; [reflexivity|]. simpl.
  repeat split; assumption.
Qed.

(** The report of a run that completes: the total is taken at one read
    of the clock, the total without waiting at the next read. *)
Lemma report_of_completed_run (fuel : nat) (url : string)
    (record_count : Z) (w w' : World) (r : Report) :
  execute_bench clock backend fuel url record_count w = (Returned r, w') ->
  exists k waited,
    duration_syncing r = Some waited /\
    duration_total r = clock k - clock (reads w) /\
    duration_total_without_waiting r
    = clock (S k) - clock (reads w) - waited.
Proof.
  rewrite execute_bench_unfold.
  destruct (bench_body clock backend fuel record_count (clock (reads w))
              (mkSQLClient url (Some url)) (at_body url w))
    as [[r0|e|] w2] eqn:Hbody; intros H; inversion H; subst; clear H.
  unfold bench_body in Hbody.
  do 8 (apply bind_returned_inv in Hbody;
        destruct Hbody as (? & ? & _ & Hbody)).
  unfold make_report, bind, now in Hbody. simpl in Hbody.
  match type of Hbody with
  | context [match ?tw with Some _ => _ | None => _ end] =>
      destruct tw as [waited|]; [|discriminate]
  end.
  inversion Hbody; subst; clear Hbody. simpl.
  eexists; eexists. repeat split.
Qed.

End OrchestratorFacts.

(** ** The properties at work *)

Lemma poll_loops_unbounded_witness :
  (exists w',
     schema_loop ticking schema_lags 3 connected world0 = (Running, w') /\
     calls w' = 3%nat /\
     sleeps (trace w') = [1; 1; 1] /\
     (fst (schema_loop ticking schema_lags 4 connected world0) = Returned tt
      <-> schema_hit (schema_lags 3%nat schema_sql None) = true)) /\
  (exists w',
     read_loop ticking count_lags 3 connected 5 world0 = (Running, w') /\
     calls w' = 3%nat /\
     sleeps (trace w') = [2; 2; 2] /\
     (fst (read_loop ticking count_lags 4 connected 5 world0) = Returned tt
      <-> read_hit 5 (count_lags 3%nat count_sql None) = true)).
Proof.
  split.
  - exact (proj1 (poll_loops_unbounded ticking schema_lags connected
                    "file:local.db" eq_refl 5 3 world0)
                 (fun _ _ => eq_refl)).
  - exact (proj2 (poll_loops_unbounded ticking count_lags connected
                    "file:local.db" eq_refl 5 3 world0)
                 (fun _ _ => eq_refl)).
Defined.

Lemma schema_sync_completes_on_two_witness :
  exists obj,
    last_result
      (trace (snd (phase_schema_sync ticking (scripted late_schema_script) 2
                     connected world0)))
    = Some (schema_sql, obj) /\
    count obj = Some 2%nat.
Proof.
  apply (schema_sync_completes_on_two ticking (scripted late_schema_script)
           connected 2 world0).
  vm_compute. reflexivity.
Defined.

Lemma recreate_must_fail_witness :
  recreate_sql <> create_sql /\
  exists w',
    execute_bench ticking (scripted lenient_script) 1 "file:local.db" 0 world0
    = (Raised AssertionError, w') /\
    dispatched (trace w') = [recreate_sql; create_sql; drop_sql] /\
    calls w' = 3%nat.
Proof.
  apply (recreate_must_fail ticking (scripted lenient_script) 1
           "file:local.db" 0 world0 empty_result).
  - vm_compute. reflexivity.
  - vm_compute. reflexivity.
  - discriminate.
Defined.

(** C4 as it is written fails on every run: the statement of the second
    create is not the statement of the first. *)
Lemma recreate_is_another_statement :
  rev (dispatched (trace (snd (execute_bench ticking (scripted healthy_script)
                                 1 "file:local.db" 0 world0))))
  = [drop_sql; create_sql; recreate_sql; schema_sql; count_sql; drop_sql] /\
  recreate_sql <> create_sql.
Proof.
  split; [vm_compute; reflexivity|discriminate].
Qed.

Lemma rejected_poll_aborts_witness :
  records (failure_result "no such table: pony" "SQLITE_ERROR") = None /\
  first_record_field "c" (failure_result "no such table: pony" "SQLITE_ERROR")
  = inl TypeError /\
  exists w',
    execute_bench ticking (scripted rejected_count_script) 5 "file:local.db" 0
      world0 = (Raised TypeError, w') /\
    last_result (trace w')
    = Some (count_sql, failure_result "no such table: pony" "SQLITE_ERROR") /\
    sleeps (trace w') = [2] /\
    calls w' = 6%nat.
Proof.
  apply (rejected_poll_aborts ticking (scripted rejected_count_script) 5 1
           "file:local.db" 0 world0 "no such table: pony" "SQLITE_ERROR").
  - vm_compute. reflexivity.
  - intros k Hk. vm_compute in Hk.
    assert (Hk4 : k = 4%nat) by lia. subst k. reflexivity.
  - vm_compute. reflexivity.
  - lia.
Defined.

(** C1 at the failing input: a complete run with no record to insert,
    under a clock that moves one tick at each read.  The report gives 44
    for the total and 7 for the wait, and 38, not 37, for the total without
    waiting. *)
Theorem report_reads_clock_twice :
  exists r w',
    execute_bench ticking (scripted healthy_script) 1 "file:local.db" 0 world0
    = (Returned r, w') /\
    duration_syncing r = Some 7 /\
    duration_total r = 44 /\
    duration_total_without_waiting r = 38 /\
    duration_total_without_waiting r <> duration_total r - 7.
Proof.
  eexists; eexists. split; [vm_compute; reflexivity|]. simpl.
  repeat split. discriminate.
Qed.

(** ** More on the result normaliser: any columns, any rows *)

Section NormalizerEdges.

Lemma get_set_same (V : Type) (k : string) (v : V) (d : Dict.t V) :
  Dict.get k (Dict.set k v d) = Some v.
Proof.
  induction d as [|[k' v'] d IH]; simpl.
  - now rewrite String.eqb_refl.
  - destruct (String.eqb k k') eqn:E; simpl.
    + now rewrite String.eqb_refl.
    + now rewrite E.
Qed.

Lemma get_set_other (V : Type) (k k' : string) (v : V) (d : Dict.t V) :
  k <> k' -> Dict.get k' (Dict.set k v d) = Dict.get k' d.
Proof.
  intros Hne. induction d as [|[k0 v0] d IH]; simpl.
  - destruct (String.eqb_spec k' k); [congruence|reflexivity].
  - destruct (String.eqb_spec k k0) as [->|Hk]; simpl.
    + destruct (String.eqb_spec k' k0); [congruence|reflexivity].
    + destruct (String.eqb_spec k' k0); [reflexivity|exact IH].
Qed.

Lemma in_keys_set (V : Type) (k k' : string) (v : V) (d : Dict.t V) :
  In k' (Dict.keys (Dict.set k v d)) -> k' = k \/ In k' (Dict.keys d).
Proof.
  induction d as [|[k0 v0] d IH]; simpl.
  - intros [H|[]]; now left.
  - destruct (String.eqb_spec k k0) as [->|Hk]; simpl.
    + intros [H|H]; [now left|right; now right].
    + intros [H|H]; [right; now left|].
      destruct (IH H) as [Hk'|Hin]; [now left|right; now right].
Qed.

(** Assigning to a key never makes a key appear twice. *)
Lemma set_keeps_keys_distinct (V : Type) (k : string) (v : V) (d : Dict.t V) :
  NoDup (Dict.keys d) -> NoDup (Dict.keys (Dict.set k v d)).
Proof.
  induction d as [|[k0 v0] d IH]; simpl; intros Hnd.
  - repeat constructor. simpl. tauto.
  - inversion Hnd as [|? ? Hnotin Hnd']; subst.
    destruct (String.eqb_spec k k0) as [->|Hk]; simpl.
    + constructor; assumption.
    + constructor; [|now apply IH].
      intros Hin. apply in_keys_set in Hin. destruct Hin; congruence.
Qed.

Lemma get_app_last (V : Type) (k c : string) (f : V) (l : Dict.t V) :
  Dict.get k (l ++ [(c, f)]) =
  match Dict.get k l with
  | Some v => Some v
  | None => if String.eqb k c then Some f else None
  end.
Proof.
  induction l as [|[k0 v0] l IH]; simpl; [reflexivity|].
  destruct (String.eqb k k0); [reflexivity|exact IH].
Qed.

Lemma skipn_nth_error (A : Type) (l : list A) :
  forall x c, nth_error l x = Some c -> skipn x l = c :: skipn (S x) l.
Proof.
  induction l as [|a l IH]; intros [|x] c H; simpl in *; try discriminate.
  - now inversion H.
  - now apply IH.
Qed.

(** The record of a row, whatever the columns: no key twice, and each
    name bound to the value of the last column of that name. *)
Lemma fill_record_last_wins (cols : list string) (row : list Value) :
  forall x rec record,
    fill_record cols x row rec = inr record ->
    NoDup (Dict.keys rec) ->
    NoDup (Dict.keys record) /\
    forall k,
      Dict.get k record =
      match Dict.get k (rev (combine (skipn x cols) row)) with
      | Some v => Some v
      | None => Dict.get k rec
      end.
Proof.
  induction row as [|f rest IH]; intros x rec record H Hnd; simpl in H.
  - inversion H; subst. split; [assumption|].
    intros k. now rewrite combine_nil.
  - destruct (nth_error cols x) as [c|] eqn:Hc; [|discriminate].
    destruct (IH (S x) _ _ H (set_keeps_keys_distinct _ c f rec Hnd))
      as [Hnd' Hget].
    split; [assumption|]. intros k. rewrite Hget.
    rewrite (skipn_nth_error _ cols x c Hc). cbn [combine rev].
    rewrite get_app_last.
    destruct (Dict.get k (rev (combine (skipn (S x) cols) rest)));
      [reflexivity|].
    destruct (String.eqb_spec k c) as [->|Hne].
    + apply get_set_same.
    + apply get_set_other. congruence.
Qed.

Lemma fill_records_rows (cols : list string) (rows : list (list Value)) :
  forall acc recs,
    fill_records cols rows acc = inr recs ->
    exists recs',
      recs = acc ++ recs' /\
      Forall2 (fun row record => fill_record cols 0 row [] = inr record)
        rows recs'.
Proof.
  induction rows as [|row rows IH]; intros acc recs H; simpl in H.
  - inversion H; subst. exists []. split; [now rewrite app_nil_r|constructor].
  - destruct (fill_record cols 0 row []) as [e|record] eqn:Hrow;
      [discriminate|].
    destruct (IH _ _ H) as (recs' & -> & Hall).
    exists (record :: recs'). split.
    + now rewrite <- app_assoc.
    + constructor; assumption.
Qed.

(** X1.  Whatever the column names, repeated or not: when
    [_init_result_set] returns, there is one record per row, no record has
    a key twice, and looking a name up in a record gives the value the row
    has at the last column of that name. *)
Theorem records_last_column_wins (self : ResultObject) (rs : ResultSet)
    (o : ResultObject) :
  _init_result_set self rs = inr o ->
  exists recs,
    records o = Some recs /\
    Forall2
      (fun row record =>
         NoDup (Dict.keys record) /\
         forall c, Dict.get c record
                   = Dict.get c (rev (combine (rs_columns rs) row)))
      (rs_rows rs) recs.
Proof.
  unfold _init_result_set.
  destruct (fill_records (rs_columns rs) (rs_rows rs) []) as [e|recs] eqn:Hfill;
    [discriminate|].
  intros H; inversion H; subst; clear H. simpl.
  exists recs. split; [reflexivity|].
  destruct (fill_records_rows _ _ _ _ Hfill) as (recs' & -> & Hall).
  simpl. clear Hfill.
  induction Hall as [|row record rows recs' Hrow Hall IH]; constructor.
  - destruct (fill_record_last_wins _ _ 0%nat [] record Hrow) as [Hnd Hget].
    { constructor. }
    split; [assumption|]. intros c. rewrite Hget. simpl.
    now destruct (Dict.get c (rev (combine (rs_columns rs) row))).
  - exact IH.
Qed.

(** The only place where filling a record can fail is the index into the
    columns, and it fails exactly when the row is longer than they are. *)
Lemma fill_record_bounds (cols : list string) (row : list Value) :
  forall x rec,
    (x <= List.length cols)%nat ->
    match fill_record cols x row rec with
    | inl e => e = IndexError /\ (List.length cols < x + List.length row)%nat
    | inr _ => (x + List.length row <= List.length cols)%nat
    end.
Proof.
  induction row as [|f rest IH]; intros x rec Hx; simpl.
  - lia.
  - destruct (nth_error cols x) as [c|] eqn:Hc.
    + assert (Hlt : (x < List.length cols)%nat)
        by (apply nth_error_Some; congruence).
      specialize (IH (S x) (Dict.set c f rec) Hlt).
      destruct (fill_record cols (S x) rest (Dict.set c f rec));
        [split; [tauto|lia]|lia].
    + apply nth_error_None in Hc. split; [reflexivity|lia].
Qed.

(** X2.  [_init_result_set] raises no exception but [IndexError], and
    raises it exactly when some row has more values than there are
    columns; otherwise it returns. *)
Theorem init_result_set_index_error (self : ResultObject) (rs : ResultSet) :
  match _init_result_set self rs with
  | inl e =>
      e = IndexError /\
      Exists (fun row => (List.length (rs_columns rs) < List.length row)%nat)
        (rs_rows rs)
  | inr _ =>
      Forall (fun row => (List.length row <= List.length (rs_columns rs))%nat)
        (rs_rows rs)
  end.
Proof.
  unfold _init_result_set.
  assert (H : forall rows acc,
             match fill_records (rs_columns rs) rows acc with
             | inl e =>
                 e = IndexError /\
                 Exists (fun row =>
                           (List.length (rs_columns rs) < List.length row)%nat)
                   rows
             | inr _ =>
                 Forall (fun row =>
                           (List.length row <= List.length (rs_columns rs))%nat)
                   rows
             end).
  { induction rows as [|row rows IH]; intros acc; simpl; [constructor|].
    pose proof (fill_record_bounds (rs_columns rs) row 0%nat []
                  (Nat.le_0_l _)) as Hrow.
    destruct (fill_record (rs_columns rs) 0 row []) as [e|record].
    - destruct Hrow as [-> Hlong]. split; [reflexivity|].
      apply Exists_cons_hd. exact Hlong.
    - specialize (IH (acc ++ [record])).
      destruct (fill_records (rs_columns rs) rows (acc ++ [record])).
      + destruct IH as [-> Hex]. split; [reflexivity|].
        now apply Exists_cons_tl.
      + constructor; [exact Hrow|exact IH]. }
  specialize (H (rs_rows rs) []).
  destruct (fill_records (rs_columns rs) (rs_rows rs) []); exact H.
Qed.

End NormalizerEdges.

Lemma records_last_column_wins_witness :
  exists o recs,
    _init_result_set blank same_name_rs = inr o /\
    records o = Some recs /\
    Forall2
      (fun row record =>
         NoDup (Dict.keys record) /\
         forall c, Dict.get c record
                   = Dict.get c (rev (combine (rs_columns same_name_rs) row)))
      (rs_rows same_name_rs) recs.
Proof.
  eexists.
  destruct (records_last_column_wins blank same_name_rs _ eq_refl)
    as (recs & Hrecs & Hall).
  exists recs. split; [reflexivity|]. split; [exact Hrecs|exact Hall].
Defined.

Lemma count_is_length_of_records_witness :
  exists o recs,
    _init_result_set blank same_name_rs = inr o /\
    records o = Some recs /\
    count o = Some (List.length recs) /\
    List.length recs = List.length (rs_rows same_name_rs).
Proof.
  eexists.
  destruct (count_is_length_of_records blank same_name_rs _ eq_refl)
    as (recs & Hrecs & Hcount & Hlen).
  exists recs. split; [reflexivity|]. split; [exact Hrecs|].
  split; [exact Hcount|exact Hlen].
Defined.

(** ** More on the executor: requests sent, shape of the result *)

Section ExecutorEdges.

Variable clock : nat -> Time.
Variable backend : nat -> string -> option (list Value) -> Exn + ResultSet.

(** X4.  One call of [execute] sends exactly one request when the client
    is connected, whatever the answer (no retry), and reads the clock
    between once and five times; on a client that is not connected it
    raises [AttributeError] and sends nothing.  It never sleeps. *)
Theorem execute_sends_one_request (self : SQLClient) (sql : string)
    (args : option (list Value)) (w : World) :
  let w' := snd (execute clock backend self sql args w) in
  match client self with
  | Some _ =>
      calls w' = S (calls w) /\
      dispatched (trace w') = sql :: dispatched (trace w) /\
      (reads w < reads w' <= reads w + 5)%nat
  | None =>
      fst (execute clock backend self sql args w) = Raised AttributeError /\
      calls w' = calls w /\
      dispatched (trace w') = dispatched (trace w)
  end /\
  sleeps (trace w') = sleeps (trace w).
Proof.
  destruct (client self) as [h|] eqn:Hc.
  - rewrite (execute_cases clock backend self h sql args w Hc).
    destruct (backend (calls w) sql args) as [e|rs].
    + destruct e; simpl; repeat split; lia.
    + destruct (ResultObject_init (Some rs) []) as [e|o]; simpl;
        repeat split; lia.
  - unfold execute, bind, try, now. rewrite Hc. simpl. repeat split.
Qed.

(** X5.  What [execute] returns is either a success with its data
    (columns, records, a count that is the number of records, the three
    durations) and no error, or the failure result of a [LibsqlError],
    which has an error and no data: never a mix of the two. *)
Theorem execute_result_shape (self : SQLClient) (sql : string)
    (args : option (list Value)) (w w' : World) (obj : ResultObject) :
  execute clock backend self sql args w = (Returned obj, w') ->
  (success obj = Some true /\
   error obj = None /\
   (exists cols recs,
      columns obj = Some cols /\
      records obj = Some recs /\
      count obj = Some (List.length recs)) /\
   (exists r s t,
      request_duration obj = Some r /\
      serialization_duration obj = Some s /\
      total_duration obj = Some t))
  \/
  (exists explanation code, obj = failure_result explanation code).
Proof.
  destruct (client self) as [h|] eqn:Hc.
  - rewrite (execute_cases clock backend self h sql args w Hc).
    destruct (backend (calls w) sql args) as [e|rs].
    + destruct e; intros H; inversion H; subst.
      right. eexists; eexists; reflexivity.
    + unfold ResultObject_init, _init_result_set. simpl fold_left.
      destruct (fill_records (rs_columns rs) (rs_rows rs) []) as [e|recs];
        intros H; inversion H; subst.
      left. simpl. split; [reflexivity|]. split; [reflexivity|].
      split; [do 2 eexists|do 3 eexists]; repeat split.
  - unfold execute, bind, try, now. rewrite Hc. simpl. discriminate.
Qed.

(** What [execute] returns is what [normalized] keeps of the answer, the
    durations apart. *)
Lemma execute_untimed (self : SQLClient) (h sql : string)
    (args : option (list Value)) (w : World) (o : ResultObject) :
  client self = Some h ->
  normalized (backend (calls w) sql args) = Some o ->
  exists obj w',
    execute clock backend self sql args w = (Returned obj, w') /\
    untimed obj = o /\
    calls w' = S (calls w) /\
    trace w' = EvResult sql obj :: EvDispatch sql args :: trace w /\
    (reads w <= reads w')%nat.
Proof.
  intros Hc Hn.
  rewrite (execute_cases clock backend self h sql args w Hc).
  unfold normalized in Hn.
  destruct (backend (calls w) sql args) as [e|rs].
  - destruct e; try discriminate. inversion Hn; subst.
    eexists; eexists. split; [reflexivity|]. simpl. repeat split. lia.
  - unfold ResultObject_init, _init_result_set in *. simpl fold_left in *.
    destruct (fill_records (rs_columns rs) (rs_rows rs) []) as [e|recs];
      [discriminate|].
    inversion Hn; subst.
    eexists; eexists. split; [reflexivity|]. simpl. repeat split. lia.
Qed.

End ExecutorEdges.

Lemma execute_result_shape_witness :
  exists obj w',
    execute ticking (always (inr two_objects_rs)) connected schema_sql None
      world0 = (Returned obj, w') /\
    ((success obj = Some true /\
      error obj = None /\
      (exists cols recs,
         columns obj = Some cols /\
         records obj = Some recs /\
         count obj = Some (List.length recs)) /\
      (exists r s t,
         request_duration obj = Some r /\
         serialization_duration obj = Some s /\
         total_duration obj = Some t))
     \/
     (exists explanation code, obj = failure_result explanation code)).
Proof.
  eexists; eexists. split; [vm_compute; reflexivity|].
  eapply (execute_result_shape ticking (always (inr two_objects_rs)) connected
            schema_sql None world0).
  vm_compute. reflexivity.
Defined.

(** ** More on the timer: later reads, and the end of a [with] block *)

Section TimerEdges.

Variable clock : nat -> Time.

(** X6.  Once a read of the duration has returned a value other than
    zero, the next read returns the same value, reads no clock and leaves
    the timer as it is; so do all the reads after it. *)
Theorem duration_stays (b b1 : Bench) (w w1 : World) (d : Time) :
  Bench_duration clock (b, w) = (Returned (Some d), (b1, w1)) ->
  d <> 0 ->
  Bench_duration clock (b1, w1) = (Returned (Some d), (b1, w1)).
Proof.
  intros H Hnz.
  destruct (falsy (_duration b)) eqn:Hf.
  - destruct (time_start b) as [start|] eqn:Hs.
    + rewrite (duration_first_read clock b w start Hs Hf) in H.
      inversion H; subst. apply duration_cached; [reflexivity|].
      congruence.
    + unfold Bench_duration, bind, get_self, put_self, lift, now in H.
      cbn -[Z.sub] in H. rewrite Hf in H. cbn -[Z.sub] in H.
      rewrite Hs in H. discriminate.
  - destruct (_duration b) as [d0|] eqn:Hd; [|discriminate].
    simpl in Hf. apply Z.eqb_neq in Hf.
    rewrite (duration_cached clock b w d0 Hd Hf) in H.
    inversion H; subst. now apply duration_cached.
Qed.

(** [__exit__] of a started timer prints what the block took, and does
    nothing else to the trace. *)
Lemma exit_prints (b : Bench) (w : World) (start : Time) :
  time_start b = Some start ->
  exists b' w' d,
    Bench_exit clock (b, w) = (Returned tt, (b', w')) /\
    trace w' = EvPrint (MsgTook (title b) d) :: trace w /\
    calls w' = calls w /\
    (reads w <= reads w')%nat.
Proof.
  intros Hs. unfold Bench_exit.
  destruct (duration_started clock b w start Hs)
    as (d1 & b1 & w1 & H1 & Hs1 & Ht1 & Htr1 & Hto1).
  rewrite (bind_returned _ _ _ _ _ H1).
  unfold get_self at 1. unfold bind at 1. cbn [fst snd].
  destruct (duration_started clock b1 w1 start Hs1)
    as (d2 & b2 & w2 & H2 & Hs2 & Ht2 & Htr2 & Hto2).
  rewrite (bind_returned _ _ _ _ _ H2).
  unfold lift, print, emit. cbn [fst snd].
  eexists; eexists; exists d2. split; [reflexivity|]. simpl.
  destruct Hto1 as (Hc1 & Hr1 & _). destruct Hto2 as (Hc2 & Hr2 & _).
  rewrite Htr2, Htr1, Ht1. repeat split; try congruence. lia.
Qed.

(** X7.  A [with Bench(...)] block around code that does not touch the
    timer ends the way that code ends: with its value, or with its
    exception, which is not swallowed.  On both ways out [__exit__] has run
    first: the last event is the message saying what the block took, and
    no request was added. *)
Theorem with_bench_finalizes (A : Type) (ttl : string) (m : M World A)
    (w : World) :
  let inside := m (snd (entered clock ttl w)) in
  exists w3,
    with_bench clock ttl (lift m) w = (fst inside, w3) /\
    match fst inside with
    | Running => w3 = snd inside
    | _ =>
        exists d,
          trace w3 = EvPrint (MsgTook ttl d) :: trace (snd inside) /\
          calls w3 = calls (snd inside)
    end.
Proof.
  intros inside. unfold with_bench.
  assert (Henter : Bench_enter clock (Bench_init ttl, w)
                   = (Returned tt, entered clock ttl w)) by reflexivity.
  rewrite (bind_returned _ _ _ _ _ Henter).
  unfold bind at 1, try, lift. fold inside.
  destruct inside as [r w2]. cbn [fst snd].
  destruct (exit_prints (fst (entered clock ttl w)) w2 (clock (reads w))
              eq_refl) as (b3 & w3 & d & Hexit & Htrace & Hcalls & _).
  cbn [entered fst title] in Hexit, Htrace.
  destruct r as [a|e|].
  - rewrite (bind_returned _ _ _ _ _ Hexit). simpl.
    exists w3. split; [reflexivity|]. exists d. split; assumption.
  - rewrite (bind_returned _ _ _ _ _ Hexit). simpl.
    exists w3. split; [reflexivity|]. exists d. split; assumption.
  - exists w2. split; reflexivity.
Qed.

End TimerEdges.

Lemma duration_stays_witness :
  Bench_duration ticking
    (mkBench "create table pony" (Some 0) (Some 1) (Some 2), mkWorld 3 0 [])
  = (Returned (Some 2),
     (mkBench "create table pony" (Some 0) (Some 1) (Some 2), mkWorld 3 0 [])).
Proof.
  apply (duration_stays ticking
           (mkBench "create table pony" (Some 0) None None) _
           (mkWorld 1 0 []) _ 2).
  - reflexivity.
  - discriminate.
Defined.

(** ** What no part of the program undoes *)

Lemma grows_refl (w : World) : grows w w.
Proof.
  unfold grows. repeat split; auto. exists []. split; [reflexivity|constructor].
Qed.

Lemma grows_trans (w1 w2 w3 : World) :
  grows w1 w2 -> grows w2 w3 -> grows w1 w3.
Proof.
  intros (Hr & Hc & t & Ht & Hin) (Hr' & Hc' & t' & Ht' & Hin').
  unfold grows. repeat split; try lia.
  exists (t' ++ t). split.
  - rewrite Ht', Ht. now rewrite app_assoc.
  - apply Forall_app. split; assumption.
Qed.

Lemma grows_event (w : World) (ev : Event) :
  inner_event ev ->
  grows w (mkWorld (reads w) (calls w) (ev :: trace w)).
Proof.
  intros Hev. unfold grows. simpl. repeat split; auto.
  exists [ev]. split; [reflexivity|]. constructor; [assumption|constructor].
Qed.

Section Growth.

Context {S : Type} (world_of : S -> World).

Lemma growing_ret (A : Type) (a : A) : growing world_of (@ret S A a).
Proof. intros s. apply grows_refl. Qed.

Lemma growing_raise (A : Type) (e : Exn) : growing world_of (@raise S A e).
Proof. intros s. apply grows_refl. Qed.

Lemma growing_running (A : Type) : growing world_of (@running S A).
Proof. intros s. apply grows_refl. Qed.

Lemma growing_reraise (A : Type) (r : Exn + A) :
  growing world_of (@reraise S A r).
Proof. destruct r; intros s; apply grows_refl. Qed.

Lemma growing_bind (A B : Type) (m : M S A) (k : A -> M S B) :
  growing world_of m ->
  (forall a, growing world_of (k a)) ->
  growing world_of (bind m k).
Proof.
  intros Hm Hk s. unfold bind. specialize (Hm s).
  destruct (m s) as [[a|e|] s']; simpl in *; try assumption.
  eapply grows_trans; [exact Hm|apply Hk].
Qed.

Lemma growing_try (A : Type) (m : M S A) :
  growing world_of m -> growing world_of (try m).
Proof.
  intros Hm s. unfold try. specialize (Hm s).
  destruct (m s) as [[a|e|] s']; simpl in *; assumption.
Qed.

End Growth.

Section GrowthOfTheProgram.

Variable clock : nat -> Time.
Variable backend : nat -> string -> option (list Value) -> Exn + ResultSet.

Local Notation "'in_world'" := (fun w : World => w).
Local Notation "'in_block'" := (@snd Bench World).

Lemma growing_now : growing in_world (now clock).
Proof.
  intros w. unfold now, grows. simpl. repeat split; try lia.
  exists []. split; [reflexivity|constructor].
Qed.

Lemma growing_emit (ev : Event) :
  inner_event ev -> growing in_world (emit ev).
Proof. intros Hev w. now apply grows_event. Qed.

Lemma growing_client_execute (sql : string) (args : option (list Value)) :
  growing in_world (client_execute backend sql args).
Proof.
  intros w. unfold client_execute.
  assert (H : grows w (mkWorld (reads w) (S (calls w))
                         (EvDispatch sql args :: trace w))).
  { unfold grows. simpl. repeat split; try lia.
    exists [EvDispatch sql args]. split; [reflexivity|].
    repeat constructor. }
  destruct (backend (calls w) sql args); exact H.
Qed.

Lemma growing_execute (self : SQLClient) (sql : string)
    (args : option (list Value)) :
  growing in_world (execute clock backend self sql args).
Proof.
  unfold execute, liftE.
  apply growing_bind; [apply growing_now|intros time_start].
  apply growing_bind.
  - apply growing_try. destruct (client self).
    + apply growing_bind; [apply growing_client_execute|intros rs].
      apply growing_bind; [apply growing_now|intro]. apply growing_ret.
    + apply growing_raise.
  - intros [e|[rs request_duration]].
    + destruct e; try apply growing_raise.
      apply growing_bind; [apply growing_reraise|intros obj].
      apply growing_bind; [apply growing_emit; exact I|intro].
      apply growing_ret.
    + apply growing_bind; [apply growing_now|intros t2].
      apply growing_bind; [apply growing_reraise|intros obj].
      apply growing_bind; [apply growing_now|intros t3].
      apply growing_bind; [apply growing_now|intros t4].
      apply growing_bind; [apply growing_emit; exact I|intro].
      apply growing_ret.
Qed.

Lemma growing_lift (A : Type) (m : M World A) :
  growing in_world m -> growing in_block (lift m).
Proof.
  intros Hm [b w]. unfold lift. simpl. specialize (Hm w).
  destruct (m w) as [r w']. exact Hm.
Qed.

Lemma growing_get_self : growing in_block get_self.
Proof. intros s. apply grows_refl. Qed.

Lemma growing_put_self (b : Bench) : growing in_block (put_self b).
Proof. intros s. apply grows_refl. Qed.

Lemma growing_duration : growing in_block (Bench_duration clock).
Proof.
  unfold Bench_duration.
  apply growing_bind; [apply growing_get_self|intros self].
  apply growing_bind.
  - destruct (falsy (_duration self)); [|apply growing_ret].
    apply growing_bind; [apply growing_lift, growing_now|intros t].
    apply growing_bind; [apply growing_put_self|intro].
    apply growing_bind; [apply growing_lift, growing_now|intros t'].
    apply growing_bind; [apply growing_get_self|intros self'].
    destruct (time_start self'); [apply growing_put_self|apply growing_raise].
  - intro. apply growing_bind; [apply growing_get_self|intro].
    apply growing_ret.
Qed.

Lemma growing_enter : growing in_block (Bench_enter clock).
Proof.
  unfold Bench_enter, print.
  apply growing_bind; [apply growing_lift, growing_now|intros t].
  apply growing_bind; [apply growing_get_self|intros self].
  apply growing_bind; [apply growing_put_self|intro].
  apply growing_lift, growing_emit. exact I.
Qed.

Lemma growing_exit : growing in_block (Bench_exit clock).
Proof.
  unfold Bench_exit, print.
  apply growing_bind; [apply growing_duration|intro].
  apply growing_bind; [apply growing_get_self|intros self].
  apply growing_bind; [apply growing_duration|intros [d|]].
  - apply growing_lift, growing_emit. exact I.
  - apply growing_raise.
Qed.

Lemma growing_with_bench (A : Type) (ttl : string)
    (body : M (Bench * World) A) :
  growing in_block body -> growing in_world (with_bench clock ttl body).
Proof.
  intros Hbody w. unfold with_bench.
  match goal with
  | |- context [let '(r, s) := ?prog ?s0 in _] =>
      assert (H : growing in_block prog);
      [|specialize (H s0); destruct (prog s0) as [r s]; exact H]
  end.
  apply growing_bind; [apply growing_enter|intro].
  apply growing_bind; [apply growing_try; exact Hbody|intros r].
  apply growing_bind; [apply growing_exit|intro].
  apply growing_reraise.
Qed.

End GrowthOfTheProgram.

Section GrowthOfTheRun.

Variable clock : nat -> Time.
Variable backend : nat -> string -> option (list Value) -> Exn + ResultSet.

Local Notation "'in_world'" := (fun w : World => w).
Local Notation "'in_block'" := (@snd Bench World).

Lemma growing_schema_loop (self : SQLClient) (fuel : nat) :
  growing in_world (schema_loop clock backend fuel self).
Proof.
  induction fuel as [|fuel IH]; simpl; [apply growing_running|].
  apply growing_bind; [apply growing_execute|intros r].
  destruct (count_ne (count r) 2); [|apply growing_ret].
  apply growing_bind; [apply growing_emit; exact I|intro].
  apply growing_bind; [apply growing_emit; exact I|intro].
  exact IH.
Qed.

Lemma growing_read_loop (self : SQLClient) (record_count : Z) (fuel : nat) :
  growing in_world (read_loop clock backend fuel self record_count).
Proof.
  induction fuel as [|fuel IH]; simpl; [apply growing_running|].
  apply growing_bind; [apply growing_execute|intros r].
  apply growing_bind; [apply growing_reraise|intros v].
  apply growing_bind; [apply growing_emit; exact I|intro].
  destruct (py_eq_int v record_count); [apply growing_ret|].
  apply growing_bind; [apply growing_emit; exact I|intro].
  exact IH.
Qed.

Lemma growing_gather (self : SQLClient) (tasks : list Task) :
  growing in_world (gather clock backend self tasks).
Proof.
  induction tasks as [|[sql args] tasks IH]; simpl; [apply growing_ret|].
  apply growing_bind; [apply growing_execute|intros r].
  apply growing_bind; [exact IH|intros rs]. apply growing_ret.
Qed.

Lemma growing_drop_prior (self : SQLClient) :
  growing in_world (phase_drop_prior clock backend self).
Proof.
  unfold phase_drop_prior, print.
  apply growing_bind; [apply growing_execute|intros r].
  destruct (success r) as [[|]|]; apply growing_emit; exact I.
Qed.

Lemma growing_create (self : SQLClient) :
  growing in_world (phase_create clock backend self).
Proof.
  apply growing_with_bench.
  apply growing_bind; [apply growing_lift, growing_execute|intro].
  apply growing_ret.
Qed.

Lemma growing_verify_rejected (self : SQLClient) :
  growing in_world (phase_verify_rejected clock backend self).
Proof.
  apply growing_with_bench.
  apply growing_bind; [apply growing_lift, growing_execute|intros r].
  destruct (success r) as [[|]|];
    first [apply growing_ret|apply growing_raise].
Qed.

Lemma growing_schema_sync (self : SQLClient) (fuel : nat) :
  growing in_world (phase_schema_sync clock backend fuel self).
Proof.
  apply growing_with_bench. apply growing_lift, growing_schema_loop.
Qed.

Lemma growing_prepare (record_count : Z) :
  growing in_world (phase_prepare clock record_count).
Proof. apply growing_with_bench. apply growing_ret. Qed.

Lemma growing_teardown (self : SQLClient) :
  growing in_world (phase_teardown clock backend self).
Proof.
  apply growing_with_bench.
  apply growing_bind; [apply growing_lift, growing_execute|intro].
  apply growing_ret.
Qed.

End GrowthOfTheRun.

(** ** The phases, one by one, on a database that answers *)

Lemma did_refl (w : World) : did w w 0 [] [].
Proof. unfold did. repeat split; auto. Qed.

Lemma did_trans (w1 w2 w3 : World) (n m : nat) (sl sl' : list Z)
    (ds ds' : list string) :
  did w1 w2 n sl ds -> did w2 w3 m sl' ds' ->
  did w1 w3 (n + m) (sl' ++ sl) (ds' ++ ds).
Proof.
  intros (Hc & Hs & Hd) (Hc' & Hs' & Hd'). unfold did.
  rewrite Hc', Hc, Hs', Hs, Hd', Hd, <- !app_assoc.
  repeat split. lia.
Qed.

Lemma did_timer (w w' : World) : timer_only w w' -> did w w' 0 [] [].
Proof.
  intros (Hc & _ & Hs & Hd & _). unfold did. rewrite Hc, Hs, Hd.
  repeat split. lia.
Qed.

Lemma did_after_timer (w1 w2 w3 : World) (n : nat) (sl : list Z)
    (ds : list string) :
  did w1 w2 n sl ds -> timer_only w2 w3 -> did w1 w3 n sl ds.
Proof.
  intros H Hto. pose proof (did_trans _ _ _ _ _ _ _ _ _ H (did_timer _ _ Hto)) as H'.
  now rewrite Nat.add_0_r in H'.
Qed.

Section PhaseFacts.

Variable clock : nat -> Time.
Variable backend : nat -> string -> option (list Value) -> Exn + ResultSet.

Variable self : SQLClient.
Variable handle : string.
Hypothesis is_connected : client self = Some handle.

Lemma execute_did (sql : string) (args : option (list Value)) (w : World)
    (o : ResultObject) :
  normalized (backend (calls w) sql args) = Some o ->
  exists obj w',
    execute clock backend self sql args w = (Returned obj, w') /\
    untimed obj = o /\
    did w w' 1 [] [sql] /\
    last_result (trace w') = Some (sql, obj).
Proof.
  intros Hn.
  destruct (execute_untimed clock backend self handle sql args w o
              is_connected Hn)
    as (obj & w' & Hx & Hu & Hcalls & Htrace & _).
  exists obj, w'. split; [exact Hx|]. split; [exact Hu|].
  unfold did. rewrite Hcalls, Htrace. simpl. repeat split. lia.
Qed.

(** A block whose body returned, the timer still started. *)
Lemma with_bench_around (A : Type) (ttl : string)
    (body : M (Bench * World) A) (w : World) (a : A) (b2 : Bench)
    (w2 : World) (start : Time) (n : nat) (sl : list Z) (ds : list string) :
  body (entered clock ttl w) = (Returned a, (b2, w2)) ->
  time_start b2 = Some start ->
  did (snd (entered clock ttl w)) w2 n sl ds ->
  exists w3,
    with_bench clock ttl body w = (Returned a, w3) /\
    did w w3 n sl ds /\
    last_result (trace w3) = last_result (trace w2).
Proof.
  intros Hbody Hs Hdid.
  destruct (with_bench_outcome clock A ttl body w (Returned a) b2 w2 start
              Hbody Hs) as (w3 & Hwith & Hto).
  exists w3. split; [exact Hwith|]. split.
  - apply did_after_timer with (w2 := w2); [|exact Hto].
    destruct Hdid as (Hc & Hsl & Hd). unfold did. simpl in *.
    rewrite Hc, Hsl, Hd. repeat split.
  - now destruct Hto as (_ & _ & _ & _ & Hl).
Qed.

Lemma drop_prior_did (w : World) :
  normalized (backend (calls w) drop_sql None) <> None ->
  exists w',
    phase_drop_prior clock backend self w = (Returned tt, w') /\
    did w w' 1 [] [drop_sql].
Proof.
  intros Hn.
  destruct (normalized (backend (calls w) drop_sql None)) as [o|] eqn:Ho;
    [|congruence].
  destruct (execute_did drop_sql None w o Ho)
    as (obj & w1 & Hx & _ & (Hc & Hs & Hd) & _).
  unfold phase_drop_prior. rewrite (bind_returned _ _ _ _ _ Hx).
  destruct (success obj) as [[|]|]; eexists; (split; [reflexivity|]);
    unfold did; simpl; repeat split; assumption.
Qed.

(** The blocks that run one statement and drop its result. *)
Lemma statement_block_did (ttl sql : string) (w : World) :
  normalized (backend (calls w) sql None) <> None ->
  exists w',
    with_bench clock ttl
      (lift (execute clock backend self sql None) ;; ret tt) w
    = (Returned tt, w') /\
    did w w' 1 [] [sql].
Proof.
  intros Hn.
  destruct (normalized (backend (calls w) sql None)) as [o|] eqn:Ho;
    [|congruence].
  destruct (execute_did sql None (snd (entered clock ttl w)) o Ho)
    as (obj & w1 & Hx & _ & Hdid & _).
  destruct (with_bench_around unit ttl
              (lift (execute clock backend self sql None) ;; ret tt) w tt
              (fst (entered clock ttl w)) w1 (clock (reads w)) 1 [] [sql])
    as (w3 & Hwith & Hdid3 & _).
  - rewrite (surjective_pairing (entered clock ttl w)) at 1.
    rewrite lift_bind, Hx. reflexivity.
  - reflexivity.
  - exact Hdid.
  - exists w3. split; assumption.
Qed.

Lemma verify_rejected_did (w : World) (o : ResultObject) :
  normalized (backend (calls w) recreate_sql None) = Some o ->
  success o = Some false ->
  exists w',
    phase_verify_rejected clock backend self w = (Returned tt, w') /\
    did w w' 1 [] [recreate_sql].
Proof.
  intros Ho Hfalse. unfold phase_verify_rejected.
  set (ttl := "create table pony again. Should fail to pass").
  destruct (execute_did recreate_sql None (snd (entered clock ttl w)) o Ho)
    as (obj & w1 & Hx & Hu & Hdid & _).
  match goal with
  | |- context [with_bench clock ttl ?body w] =>
      destruct (with_bench_around unit ttl body w tt
                  (fst (entered clock ttl w)) w1 (clock (reads w))
                  1 [] [recreate_sql])
        as (w3 & Hwith & Hdid3 & _)
  end.
  - rewrite (surjective_pairing (entered clock ttl w)) at 1.
    rewrite lift_bind, Hx.
    assert (Hs : success obj = Some false)
      by (rewrite <- Hfalse, <- Hu; reflexivity).
    rewrite Hs. reflexivity.
  - reflexivity.
  - exact Hdid.
  - exists w3. split; assumption.
Qed.

Lemma schema_miss_did (w : World) :
  schema_miss (backend (calls w) schema_sql None) = true ->
  exists w',
    (forall fuel,
       schema_loop clock backend (S fuel) self w
       = schema_loop clock backend fuel self w') /\
    did w w' 1 [1] [schema_sql].
Proof.
  unfold schema_miss. intros Hmiss.
  pose proof (execute_normalized clock backend self handle is_connected
                schema_sql None w) as Hx.
  destruct (normalized (backend (calls w) schema_sql None)) as [o|];
    [|discriminate].
  destruct Hx as (obj & w1 & Hx & Hcount & _ & _ & Hcalls & Htrace).
  exists (mkWorld (reads w1) (calls w1)
            (EvSleep 1
             :: EvPrint (MsgText
                  "Schema not synchronized. Sleeping a second before retyry.")
             :: trace w1)).
  split.
  - intros fuel. simpl. rewrite (bind_returned _ _ _ _ _ Hx).
    rewrite Hcount, Hmiss. reflexivity.
  - unfold did. simpl. rewrite Hcalls, Htrace. simpl. repeat split. lia.
Qed.

Lemma schema_hit_did (w : World) :
  schema_hit (backend (calls w) schema_sql None) = true ->
  exists w',
    (forall fuel,
       schema_loop clock backend (S fuel) self w = (Returned tt, w')) /\
    did w w' 1 [] [schema_sql].
Proof.
  unfold schema_hit. intros Hhit.
  pose proof (execute_normalized clock backend self handle is_connected
                schema_sql None w) as Hx.
  destruct (normalized (backend (calls w) schema_sql None)) as [o|];
    [|discriminate].
  destruct Hx as (obj & w1 & Hx & Hcount & _ & _ & Hcalls & Htrace).
  apply negb_true_iff in Hhit.
  exists w1. split.
  - intros fuel. simpl. rewrite (bind_returned _ _ _ _ _ Hx).
    rewrite Hcount, Hhit. reflexivity.
  - unfold did. rewrite Hcalls, Htrace. simpl. repeat split. lia.
Qed.

Lemma schema_loop_did (a : nat) :
  forall fuel w,
    (forall k, (calls w <= k < calls w + a)%nat ->
               schema_miss (backend k schema_sql None) = true) ->
    schema_hit (backend (calls w + a)%nat schema_sql None) = true ->
    (a < fuel)%nat ->
    exists w',
      schema_loop clock backend fuel self w = (Returned tt, w') /\
      did w w' (S a) (repeat 1 a) (repeat schema_sql (S a)).
Proof.
  induction a as [|a IH]; intros fuel w Hmiss Hhit Hfuel;
    (destruct fuel as [|fuel]; [lia|]).
  - rewrite Nat.add_0_r in Hhit.
    destruct (schema_hit_did w Hhit) as (w' & Hrun & Hdid).
    exists w'. split; [apply Hrun|exact Hdid].
  - destruct (schema_miss_did w) as (w1 & Hstep & Hdid1); [apply Hmiss; lia|].
    pose proof Hdid1 as (Hc1 & _).
    destruct (IH fuel w1) as (w' & Hrun & Hdid); try lia.
    + intros k Hk. apply Hmiss. lia.
    + rewrite Hc1. replace (calls w + 1 + a)%nat with (calls w + S a)%nat by lia.
      exact Hhit.
    + exists w'. split; [rewrite Hstep; exact Hrun|].
      pose proof (did_trans _ _ _ _ _ _ _ _ _ Hdid1 Hdid) as H.
      rewrite <- (repeat_cons a 1) in H.
      rewrite <- (repeat_cons (S a) schema_sql) in H. exact H.
Qed.

Lemma read_miss_did (record_count : Z) (w : World) :
  read_miss record_count (backend (calls w) count_sql None) = true ->
  exists w',
    (forall fuel,
       read_loop clock backend (S fuel) self record_count w
       = read_loop clock backend fuel self record_count w') /\
    did w w' 1 [2] [count_sql].
Proof.
  unfold read_miss. intros Hmiss.
  pose proof (execute_normalized clock backend self handle is_connected
                count_sql None w) as Hx.
  destruct (normalized (backend (calls w) count_sql None)) as [o|];
    [|discriminate].
  destruct Hx as (obj & w1 & Hx & _ & Hrecords & _ & Hcalls & Htrace).
  destruct (first_record_field "c" o) as [e|v] eqn:Hfield; [discriminate|].
  apply negb_true_iff in Hmiss.
  exists (mkWorld (reads w1) (calls w1)
            (EvSleep 2 :: EvPrint (MsgInsertCheck v record_count)
             :: trace w1)).
  split.
  - intros fuel. simpl. rewrite (bind_returned _ _ _ _ _ Hx).
    rewrite (first_record_field_records "c" obj o Hrecords), Hfield.
    unfold liftE, reraise, print, sleep, emit, bind, ret. simpl.
    rewrite Hmiss. reflexivity.
  - unfold did. simpl. rewrite Hcalls, Htrace. simpl. repeat split. lia.
Qed.

Lemma read_hit_did (record_count : Z) (w : World) :
  read_hit record_count (backend (calls w) count_sql None) = true ->
  exists w',
    (forall fuel,
       read_loop clock backend (S fuel) self record_count w
       = (Returned tt, w')) /\
    did w w' 1 [] [count_sql].
Proof.
  unfold read_hit. intros Hhit.
  pose proof (execute_normalized clock backend self handle is_connected
                count_sql None w) as Hx.
  destruct (normalized (backend (calls w) count_sql None)) as [o|];
    [|discriminate].
  destruct Hx as (obj & w1 & Hx & _ & Hrecords & _ & Hcalls & Htrace).
  destruct (first_record_field "c" o) as [e|v] eqn:Hfield; [discriminate|].
  exists (mkWorld (reads w1) (calls w1)
            (EvPrint (MsgInsertCheck v record_count) :: trace w1)).
  split.
  - intros fuel. simpl. rewrite (bind_returned _ _ _ _ _ Hx).
    rewrite (first_record_field_records "c" obj o Hrecords), Hfield.
    unfold liftE, reraise, print, sleep, emit, bind, ret. simpl.
    rewrite Hhit. reflexivity.
  - unfold did. simpl. rewrite Hcalls, Htrace. simpl. repeat split. lia.
Qed.

Lemma read_loop_did (record_count : Z) (b : nat) :
  forall fuel w,
    (forall k, (calls w <= k < calls w + b)%nat ->
               read_miss record_count (backend k count_sql None) = true) ->
    read_hit record_count (backend (calls w + b)%nat count_sql None) = true ->
    (b < fuel)%nat ->
    exists w',
      read_loop clock backend fuel self record_count w = (Returned tt, w') /\
      did w w' (S b) (repeat 2 b) (repeat count_sql (S b)).
Proof.
  induction b as [|b IH]; intros fuel w Hmiss Hhit Hfuel;
    (destruct fuel as [|fuel]; [lia|]).
  - rewrite Nat.add_0_r in Hhit.
    destruct (read_hit_did record_count w Hhit) as (w' & Hrun & Hdid).
    exists w'. split; [apply Hrun|exact Hdid].
  - destruct (read_miss_did record_count w) as (w1 & Hstep & Hdid1);
      [apply Hmiss; lia|].
    pose proof Hdid1 as (Hc1 & _).
    destruct (IH fuel w1) as (w' & Hrun & Hdid); try lia.
    + intros k Hk. apply Hmiss. lia.
    + rewrite Hc1. replace (calls w + 1 + b)%nat with (calls w + S b)%nat by lia.
      exact Hhit.
    + exists w'. split; [rewrite Hstep; exact Hrun|].
      pose proof (did_trans _ _ _ _ _ _ _ _ _ Hdid1 Hdid) as H.
      rewrite <- (repeat_cons b 2) in H.
      rewrite <- (repeat_cons (S b) count_sql) in H. exact H.
Qed.

(** A batch whose requests all get an answer the executor returns: every
    task is sent, in the order of the list, and the results are the
    answers. *)
Lemma gather_answers (tasks : list Task) :
  forall w,
    Forall (fun a => a <> None) (task_answers backend (calls w) tasks) ->
    exists results w',
      gather clock backend self tasks w = (Returned results, w') /\
      map (fun r => Some (untimed r)) results
      = task_answers backend (calls w) tasks /\
      did w w' (List.length tasks) [] (rev (map fst tasks)).
Proof.
  induction tasks as [|[sql args] tasks IH]; intros w Hall; simpl in *.
  - exists [], w. split; [reflexivity|]. split; [reflexivity|apply did_refl].
  - inversion Hall as [|? ? Hfirst Hrest]; subst.
    destruct (normalized (backend (calls w) sql args)) as [o|] eqn:Ho;
      [|congruence].
    destruct (execute_did sql args w o Ho)
      as (obj & w1 & Hx & Hu & Hdid1 & _).
    pose proof Hdid1 as (Hc1 & _).
    replace (S (calls w)) with (calls w1) in * by lia.
    destruct (IH w1 Hrest) as (results & w' & Hg & Hmap & Hdid).
    exists (obj :: results), w'.
    rewrite (bind_returned _ _ _ _ _ Hx), (bind_returned _ _ _ _ _ Hg).
    split; [reflexivity|]. split.
    + simpl. now rewrite Hu, Hmap.
    + exact (did_trans _ _ _ _ _ _ _ _ _ Hdid1 Hdid).
Qed.

(** A block that runs something and then reads its own duration. *)
Lemma duration_block_did (A : Type) (ttl : string) (m : M World A)
    (w w2 : World) (a : A) (n : nat) (sl : list Z) (ds : list string) :
  m (snd (entered clock ttl w)) = (Returned a, w2) ->
  did (snd (entered clock ttl w)) w2 n sl ds ->
  exists d w3,
    with_bench clock ttl (lift m ;; Bench_duration clock) w
    = (Returned (Some d), w3) /\
    did w w3 n sl ds.
Proof.
  intros Hm Hdid.
  pose proof (duration_first_read clock (fst (entered clock ttl w)) w2
                (clock (reads w)) eq_refl eq_refl) as Hd.
  match type of Hd with
  | _ = (Returned (Some ?d), (?b', ?w')) =>
      destruct (with_bench_around (option Time) ttl
                  (lift m ;; Bench_duration clock) w (Some d) b' w'
                  (clock (reads w)) n sl ds)
        as (w3 & Hwith & Hdid3 & _)
  end.
  - rewrite (surjective_pairing (entered clock ttl w)) at 1.
    rewrite lift_bind, Hm. exact Hd.
  - reflexivity.
  - destruct Hdid as (Hc & Hs & Hdd). unfold did. simpl.
    repeat split; assumption.
  - eexists; exists w3. split; [exact Hwith|exact Hdid3].
Qed.

Lemma schema_sync_did (fuel a : nat) (w : World) :
  (forall k, (calls w <= k < calls w + a)%nat ->
             schema_miss (backend k schema_sql None) = true) ->
  schema_hit (backend (calls w + a)%nat schema_sql None) = true ->
  (a < fuel)%nat ->
  exists w',
    phase_schema_sync clock backend fuel self w = (Returned tt, w') /\
    did w w' (S a) (repeat 1 a) (repeat schema_sql (S a)).
Proof.
  intros Hmiss Hhit Hfuel. unfold phase_schema_sync.
  set (ttl := "checking if schema is updated").
  destruct (schema_loop_did a fuel (snd (entered clock ttl w)) Hmiss Hhit
              Hfuel) as (w2 & Hloop & Hdid).
  destruct (with_bench_around unit ttl
              (lift (schema_loop clock backend fuel self)) w tt
              (fst (entered clock ttl w)) w2 (clock (reads w))
              (S a) (repeat 1 a) (repeat schema_sql (S a)))
    as (w3 & Hwith & Hdid3 & _).
  - unfold lift. rewrite Hloop. reflexivity.
  - reflexivity.
  - exact Hdid.
  - exists w3. split; assumption.
Qed.

Lemma read_convergence_did (fuel b : nat) (record_count : Z) (w : World) :
  (forall k, (calls w <= k < calls w + b)%nat ->
             read_miss record_count (backend k count_sql None) = true) ->
  read_hit record_count (backend (calls w + b)%nat count_sql None) = true ->
  (b < fuel)%nat ->
  exists d w',
    phase_read_convergence clock backend fuel self record_count w
    = (Returned (Some d), w') /\
    did w w' (S b) (repeat 2 b) (repeat count_sql (S b)).
Proof.
  intros Hmiss Hhit Hfuel. unfold phase_read_convergence.
  set (ttl := "waiting until all inserted data is available for read").
  destruct (read_loop_did record_count b fuel (snd (entered clock ttl w))
              Hmiss Hhit Hfuel) as (w2 & Hloop & Hdid).
  exact (duration_block_did unit ttl _ w w2 tt _ _ _ Hloop Hdid).
Qed.

Lemma prepare_did (record_count : Z) (w : World) :
  exists w',
    phase_prepare clock record_count w
    = (Returned (map (fun x : nat => (insert_sql, pony x))
                   (seq 0 (Z.to_nat record_count))), w') /\
    did w w' 0 [] [].
Proof.
  unfold phase_prepare.
  match goal with
  | |- context [with_bench clock ?ttl (ret ?tasks) w] =>
      destruct (with_bench_around (list Task) ttl (ret tasks) w tasks
                  (fst (entered clock ttl w)) (snd (entered clock ttl w))
                  (clock (reads w)) 0 [] [])
        as (w3 & Hwith & Hdid3 & _);
      [reflexivity|reflexivity|apply did_refl|]
  end.
  exists w3. split; assumption.
Qed.

Lemma insert_answers (n : nat) :
  forall k s,
    (forall x, (x < n)%nat ->
               normalized (backend (k + x)%nat insert_sql (pony (s + x)))
               <> None) ->
    Forall (fun a => a <> None)
      (task_answers backend k
         (map (fun x : nat => (insert_sql, pony x)) (seq s n))).
Proof.
  induction n as [|n IH]; intros k s H; simpl; constructor.
  - specialize (H 0%nat (Nat.lt_0_succ n)).
    now rewrite !Nat.add_0_r in H.
  - apply IH. intros x Hx. specialize (H (S x) (proj1 (Nat.succ_lt_mono _ _) Hx)).
    now rewrite !Nat.add_succ_r in H.
Qed.

Lemma insert_statements (n : nat) :
  forall s,
    rev (map fst (map (fun x : nat => (insert_sql, pony x)) (seq s n)))
    = repeat insert_sql n.
Proof.
  induction n as [|n IH]; intros s; simpl; [reflexivity|].
  rewrite IH. symmetry. apply repeat_cons.
Qed.

Lemma load_did (record_count : Z) (w : World) :
  (forall x, (x < Z.to_nat record_count)%nat ->
             normalized (backend (calls w + x)%nat insert_sql (pony x))
             <> None) ->
  exists d w',
    phase_load clock backend self record_count
      (map (fun x : nat => (insert_sql, pony x))
         (seq 0 (Z.to_nat record_count))) w
    = (Returned (Some d), w') /\
    did w w' (Z.to_nat record_count) []
      (repeat insert_sql (Z.to_nat record_count)).
Proof.
  intros Hall. unfold phase_load.
  set (ttl := ("Executing " ++ str record_count
               ++ " tasks in parallel.")%string).
  set (tasks := map (fun x : nat => (insert_sql, pony x))
                  (seq 0 (Z.to_nat record_count))).
  destruct (gather_answers tasks (snd (entered clock ttl w)))
    as (results & w2 & Hg & _ & Hdid).
  { apply insert_answers. exact Hall. }
  unfold tasks in Hdid at 2.
  rewrite insert_statements in Hdid.
  unfold tasks in Hdid at 1. rewrite length_map, length_seq in Hdid.
  exact (duration_block_did _ ttl _ w w2 results _ _ _ Hg Hdid).
Qed.

End PhaseFacts.

(** ** A whole run *)

Section WholeRun.

Variable clock : nat -> Time.
Variable backend : nat -> string -> option (list Value) -> Exn + ResultSet.

(** X9.  On a database on which the schema query hits after [a] misses
    and the count query after [b] misses (the second create being rejected,
    and every other statement getting an answer, be it a rejection), a run
    with fuel above [a] and [b] returns a report.  It has then sent
    [6 + a + n + b] requests, [n] being the number of records: the drop, the
    two creates, [a + 1] schema queries, [n] inserts, [b + 1] count queries
    and the last drop, in this order; and it has slept [a] times one second
    and [b] times two seconds. *)
Theorem run_completes (fuel : nat) (url : string) (record_count : Z)
    (w : World) (a b : nat) :
  converging backend (calls w) record_count a b ->
  (a < fuel)%nat ->
  (b < fuel)%nat ->
  let n := Z.to_nat record_count in
  exists r w',
    execute_bench clock backend fuel url record_count w = (Returned r, w') /\
    calls w' = (calls w + (6 + a + n + b))%nat /\
    sleeps (trace w') = repeat 2 b ++ repeat 1 a ++ sleeps (trace w) /\
    dispatched (trace w')
    = drop_sql :: repeat count_sql (S b) ++ repeat insert_sql n
      ++ repeat schema_sql (S a)
      ++ recreate_sql :: create_sql :: drop_sql :: dispatched (trace w).
Proof.
  intros (Hdrop & Hcreate & (o & Ho & Hrejected) & Hsmiss & Hshit & Hins
          & Hrmiss & Hrhit & Hlast) Ha Hb n.
  fold n in Hins, Hrmiss, Hrhit, Hlast.
  set (self := mkSQLClient url (Some url)).
  assert (Hconn : client self = Some url) by reflexivity.
  set (w0 := at_body url w).
  assert (H0 : did w w0 0 [] []).
  { unfold did, w0. simpl. repeat split. lia. }
  destruct (drop_prior_did clock backend self url Hconn w0)
    as (w1 & Hp1 & H1); [exact Hdrop|].
  pose proof H0 as (Hc0 & _). pose proof H1 as (Hc1 & _).
  destruct (statement_block_did clock backend self url Hconn
              "create table pony" create_sql w1)
    as (w2 & Hp2 & H2).
  { replace (calls w1) with (calls w + 1)%nat by lia. exact Hcreate. }
  pose proof H2 as (Hc2 & _).
  destruct (verify_rejected_did clock backend self url Hconn w2 o)
    as (w3 & Hp3 & H3); [|exact Hrejected|].
  { replace (calls w2) with (calls w + 2)%nat by lia. exact Ho. }
  pose proof H3 as (Hc3 & _).
  destruct (schema_sync_did clock backend self url Hconn fuel a w3)
    as (w4 & Hp4 & H4); [| |exact Ha|].
  { intros k Hk. apply Hsmiss. lia. }
  { replace (calls w3 + a)%nat with (calls w + 3 + a)%nat by lia.
    exact Hshit. }
  pose proof H4 as (Hc4 & _).
  destruct (prepare_did clock record_count w4) as (w5 & Hp5 & H5).
  pose proof H5 as (Hc5 & _).
  destruct (load_did clock backend self url Hconn record_count w5)
    as (duration_insert & w6 & Hp6 & H6).
  { intros x Hx.
    replace (calls w5 + x)%nat with (calls w + 4 + a + x)%nat by lia.
    apply Hins. exact Hx. }
  fold n in H6. pose proof H6 as (Hc6 & _).
  destruct (read_convergence_did clock backend self url Hconn fuel b
              record_count w6)
    as (time_waited & w7 & Hp7 & H7); [| |exact Hb|].
  { intros k Hk. apply Hrmiss. lia. }
  { replace (calls w6 + b)%nat with (calls w + 4 + a + n + b)%nat by lia.
    exact Hrhit. }
  pose proof H7 as (Hc7 & _).
  destruct (statement_block_did clock backend self url Hconn
              "cleaning up by dropping table pony" drop_sql w7)
    as (w8 & Hp8 & H8).
  { replace (calls w7) with (calls w + 5 + a + n + b)%nat by lia.
    exact Hlast. }
  rewrite execute_bench_unfold. fold self w0. unfold bench_body.
  rewrite (bind_returned _ _ _ _ _ Hp1).
  unfold phase_create. rewrite (bind_returned _ _ _ _ _ Hp2).
  rewrite (bind_returned _ _ _ _ _ Hp3).
  rewrite (bind_returned _ _ _ _ _ Hp4).
  rewrite (bind_returned _ _ _ _ _ Hp5).
  rewrite (bind_returned _ _ _ _ _ Hp6).
  rewrite (bind_returned _ _ _ _ _ Hp7).
  unfold phase_teardown. rewrite (bind_returned _ _ _ _ _ Hp8).
  unfold make_report, bind, now, ret. cbn [fst snd].
  eexists; eexists. split; [reflexivity|].
  destruct H0 as (_ & Hs0 & Hd0). destruct H1 as (_ & Hs1 & Hd1).
  destruct H2 as (_ & Hs2 & Hd2). destruct H3 as (_ & Hs3 & Hd3).
  destruct H4 as (_ & Hs4 & Hd4). destruct H5 as (_ & Hs5 & Hd5).
  destruct H6 as (_ & Hs6 & Hd6). destruct H7 as (_ & Hs7 & Hd7).
  destruct H8 as (Hc8 & Hs8 & Hd8).
  cbn [closed calls trace reads sleeps dispatched].
  split; [lia|]. split.
  - rewrite Hs8, Hs7, Hs6, Hs5, Hs4, Hs3, Hs2, Hs1, Hs0. reflexivity.
  - rewrite Hd8, Hd7, Hd6, Hd5, Hd4, Hd3, Hd2, Hd1, Hd0.
    cbn [app]. rewrite <- ?app_assoc. reflexivity.
Qed.

End WholeRun.

Lemma run_completes_witness :
  exists r w',
    execute_bench ticking (scripted laggy_script) 2 "http://localhost:8080" 2
      world0 = (Returned r, w') /\
    calls w' = 10%nat /\
    sleeps (trace w') = [2; 1] /\
    dispatched (trace w')
    = [drop_sql; count_sql; count_sql; insert_sql; insert_sql;
       schema_sql; schema_sql; recreate_sql; create_sql; drop_sql].
Proof.
  apply (run_completes ticking (scripted laggy_script) 2
           "http://localhost:8080" 2 world0 1 1); try lia.
  unfold converging. simpl calls. simpl Z.to_nat.
  split; [discriminate|]. split; [discriminate|].
  split; [eexists; split; reflexivity|].
  split; [intros k Hk; assert (Hk3 : k = 3%nat) by lia; subst k; reflexivity|].
  split; [reflexivity|].
  split; [intros [|[|x]] Hx; try lia; discriminate|].
  split; [intros k Hk; assert (Hk7 : k = 7%nat) by lia; subst k; reflexivity|].
  split; [reflexivity|discriminate].
Defined.

(** ** The bounds of the report *)

Section ReportBounds.

Variable clock : nat -> Time.
Variable backend : nat -> string -> option (list Value) -> Exn + ResultSet.

Local Notation "'in_world'" := (fun w : World => w).

(** What a block that ends by reading its own duration returns: the time
    from the read of the clock that started it to a later read, made before
    the block is left. *)
Lemma duration_block_inv (A : Type) (ttl : string) (m : M World A)
    (w w' : World) (x : option Time) :
  growing in_world m ->
  with_bench clock ttl (lift m ;; Bench_duration clock) w = (Returned x, w') ->
  exists k,
    x = Some (clock k - clock (reads w)) /\ (reads w < k < reads w')%nat.
Proof.
  intros Hm H.
  pose proof (Hm (snd (entered clock ttl w))) as (Hreads & _).
  destruct (m (snd (entered clock ttl w))) as [[a|e|] w2] eqn:Hrun.
  - pose proof (duration_first_read clock (fst (entered clock ttl w)) w2
                  (clock (reads w)) eq_refl eq_refl) as Hd.
    match type of Hd with
    | _ = (Returned (Some ?d), (?b', ?w2')) =>
        destruct (with_bench_outcome clock (option Time) ttl
                    (lift m ;; Bench_duration clock) w
                    (Returned (Some d)) b' w2' (clock (reads w)))
          as (w3 & Hwith & (_ & Hr3 & _))
    end.
    + rewrite (surjective_pairing (entered clock ttl w)) at 1.
      rewrite lift_bind, Hrun. exact Hd.
    + reflexivity.
    + rewrite Hwith in H. inversion H; subst.
      exists (S (reads w2)). split; [reflexivity|].
      simpl in Hreads, Hr3. lia.
  - destruct (with_bench_outcome clock (option Time) ttl
                (lift m ;; Bench_duration clock) w
                (Raised e) (fst (entered clock ttl w)) w2 (clock (reads w)))
      as (w3 & Hwith & _).
    + rewrite (surjective_pairing (entered clock ttl w)) at 1.
      rewrite lift_bind, Hrun. reflexivity.
    + reflexivity.
    + rewrite Hwith in H. discriminate.
  - destruct (with_bench_outcome clock (option Time) ttl
                (lift m ;; Bench_duration clock) w
                Running (fst (entered clock ttl w)) w2 (clock (reads w)))
      as (w3 & Hwith & _).
    + rewrite (surjective_pairing (entered clock ttl w)) at 1.
      rewrite lift_bind, Hrun. reflexivity.
    + reflexivity.
    + rewrite Hwith in H. discriminate.
Qed.

(** X10.  Under a clock that never goes backwards, the report of every
    run that completes has a wait and an insert duration that are not
    negative and whose sum is at most the total (the two intervals do not
    overlap), and a total without waiting that is at least the total minus
    the wait. *)
Theorem report_bounds (fuel : nat) (url : string) (record_count : Z)
    (w w' : World) (r : Report) :
  monotone clock ->
  execute_bench clock backend fuel url record_count w = (Returned r, w') ->
  exists waited inserting,
    duration_syncing r = Some waited /\
    duration_insert r = Some inserting /\
    0 <= waited /\
    0 <= inserting /\
    waited + inserting <= duration_total r /\
    duration_total r - waited <= duration_total_without_waiting r.
Proof.
  intros Hmono. rewrite execute_bench_unfold.
  set (self := mkSQLClient url (Some url)).
  destruct (bench_body clock backend fuel record_count (clock (reads w))
              self (at_body url w))
    as [[r0|e|] w9] eqn:Hbody; intros H; inversion H; subst; clear H.
  unfold bench_body in Hbody.
  apply bind_returned_inv in Hbody. destruct Hbody as (? & w1 & H1 & Hbody).
  apply bind_returned_inv in Hbody. destruct Hbody as (? & w2 & H2 & Hbody).
  apply bind_returned_inv in Hbody. destruct Hbody as (? & w3 & H3 & Hbody).
  apply bind_returned_inv in Hbody. destruct Hbody as (? & w4 & H4 & Hbody).
  apply bind_returned_inv in Hbody. destruct Hbody as (tasks & w5 & H5 & Hbody).
  apply bind_returned_inv in Hbody. destruct Hbody as (di & w6 & H6 & Hbody).
  apply bind_returned_inv in Hbody. destruct Hbody as (tw & w7 & H7 & Hbody).
  apply bind_returned_inv in Hbody. destruct Hbody as (? & w8 & H8 & Hbody).
  pose proof (growing_drop_prior clock backend self (at_body url w)) as (G1 & _).
  pose proof (growing_create clock backend self w1) as (G2 & _).
  pose proof (growing_verify_rejected clock backend self w2) as (G3 & _).
  pose proof (growing_schema_sync clock backend self fuel w3) as (G4 & _).
  pose proof (growing_prepare clock record_count w4) as (G5 & _).
  pose proof (growing_teardown clock backend self w7) as (G8 & _).
  rewrite H1 in G1. rewrite H2 in G2. rewrite H3 in G3. rewrite H4 in G4.
  rewrite H5 in G5. rewrite H8 in G8. simpl in G1, G2, G3, G4, G5, G8.
  destruct (duration_block_inv _ _ _ _ _ _
              (growing_gather clock backend self tasks) H6)
    as (k6 & -> & Hk6).
  destruct (duration_block_inv _ _ _ _ _ _
              (growing_read_loop clock backend self record_count fuel) H7)
    as (k7 & -> & Hk7).
  unfold make_report, bind, now in Hbody. simpl in Hbody.
  inversion Hbody; subst; clear Hbody. simpl.
  exists (clock k7 - clock (reads w6)), (clock k6 - clock (reads w5)).
  split; [reflexivity|]. split; [reflexivity|].
  pose proof (Hmono (reads w6) k7 ltac:(lia)).
  pose proof (Hmono (reads w5) k6 ltac:(lia)).
  pose proof (Hmono k6 (reads w6) ltac:(lia)).
  pose proof (Hmono k7 (reads w8) ltac:(lia)).
  pose proof (Hmono (reads w) (reads w5) ltac:(lia)).
  pose proof (Hmono (reads w8) (S (reads w8)) ltac:(lia)).
  repeat split; lia.
Qed.

End ReportBounds.

Lemma report_bounds_witness :
  monotone ticking /\
  exists r waited inserting,
    fst (execute_bench ticking (scripted laggy_script) 2
           "http://localhost:8080" 2 world0) = Returned r /\
    duration_syncing r = Some waited /\
    duration_insert r = Some inserting /\
    0 <= waited /\
    0 <= inserting /\
    waited + inserting <= duration_total r /\
    duration_total r - waited <= duration_total_without_waiting r.
Proof.
  assert (Hmono : monotone ticking).
  { intros i j Hij. unfold ticking. lia. }
  split; [exact Hmono|].
  eexists.
  destruct (report_bounds ticking (scripted laggy_script) 2
              "http://localhost:8080" 2 world0 _ _ Hmono
              ltac:(vm_compute; reflexivity))
    as (waited & inserting & H).
  exists waited, inserting. split; [vm_compute; reflexivity|exact H].
Defined.

(** ** Edges of the phases *)

Section PhaseEdges.

Variable clock : nat -> Time.
Variable backend : nat -> string -> option (list Value) -> Exn + ResultSet.

Variable self : SQLClient.
Variable handle : string.
Hypothesis is_connected : client self = Some handle.

(** X11.  The first drop does not fail the run whether the table was
    there or not: on any answer the executor returns, the phase returns
    after that one request, and its message says which of the two it was. *)
Theorem drop_prior_reports (w : World) (o : ResultObject) :
  normalized (backend (calls w) drop_sql None) = Some o ->
  exists obj w',
    phase_drop_prior clock backend self w = (Returned tt, w') /\
    calls w' = S (calls w) /\
    trace w'
    = EvPrint
        (MsgText
           match success o with
           | Some true =>
               "Table pony is deleted. Crashed previous time? Clean up didn't happen."
           | _ => "Table pony does not exist. That's expected."
           end)
      :: EvResult drop_sql obj :: EvDispatch drop_sql None :: trace w.
Proof.
  intros Ho.
  destruct (execute_untimed clock backend self handle drop_sql None w o
              is_connected Ho)
    as (obj & w1 & Hx & Hu & Hcalls & Htrace & _).
  assert (Hs : success obj = success o) by (rewrite <- Hu; reflexivity).
  exists obj. unfold phase_drop_prior. rewrite (bind_returned _ _ _ _ _ Hx).
  rewrite Hs. unfold print, emit.
  destruct (success o) as [[|]|]; eexists; simpl;
    rewrite Hcalls, Htrace; repeat split.
Qed.

(** X12.  Inserts that the database rejects do not stop the batch:
    when every task is answered by a [LibsqlError], [gather] still returns,
    with one failure result per task and one request per task. *)
Theorem gather_keeps_rejected_inserts (tasks : list Task) :
  forall w,
    (forall i task,
       nth_error tasks i = Some task ->
       exists explanation code,
         backend (calls w + i)%nat (fst task) (snd task)
         = inl (LibsqlError explanation code)) ->
    exists results w',
      gather clock backend self tasks w = (Returned results, w') /\
      List.length results = List.length tasks /\
      Forall (fun r => success r = Some false /\ records r = None) results /\
      calls w' = (calls w + List.length tasks)%nat.
Proof.
  induction tasks as [|[sql args] tasks IH]; intros w Hall.
  - exists [], w. simpl. repeat split; auto.
  - destruct (Hall 0%nat (sql, args) eq_refl) as (explanation & code & Hb).
    rewrite Nat.add_0_r in Hb. simpl in Hb.
    pose proof (execute_cases clock backend self handle sql args w
                  is_connected) as Hx.
    rewrite Hb in Hx.
    match type of Hx with
    | _ = (_, ?w1) => destruct (IH w1) as (results & w' & Hg & Hlen & Hfail & Hc)
    end.
    { intros i task Hi. cbn [calls].
      replace (S (calls w) + i)%nat with (calls w + S i)%nat by lia.
      apply (Hall (S i) task). exact Hi. }
    exists (failure_result explanation code :: results), w'. simpl.
    rewrite (bind_returned _ _ _ _ _ Hx), (bind_returned _ _ _ _ _ Hg).
    split; [reflexivity|]. split; [simpl; lia|].
    split; [constructor; [split; reflexivity|exact Hfail]|].
    simpl in Hc. lia.
Qed.

(** X13.  In the schema wait, a schema query that the database rejects
    is one more miss: the count of the failure result is [None], which is
    not 2, so the loop prints, sleeps one second and asks again. *)
Theorem schema_rejected_is_retried (w : World) (explanation code : string) :
  backend (calls w) schema_sql None = inl (LibsqlError explanation code) ->
  exists w',
    (forall fuel,
       schema_loop clock backend (S fuel) self w
       = schema_loop clock backend fuel self w') /\
    calls w' = S (calls w) /\
    trace w'
    = EvSleep 1
      :: EvPrint
           (MsgText "Schema not synchronized. Sleeping a second before retyry.")
      :: EvResult schema_sql (failure_result explanation code)
      :: EvDispatch schema_sql None :: trace w.
Proof.
  intros Hb.
  pose proof (execute_cases clock backend self handle schema_sql None w
                is_connected) as Hx.
  rewrite Hb in Hx.
  eexists. split; [|split].
  - intros fuel. simpl. rewrite (bind_returned _ _ _ _ _ Hx). reflexivity.
  - reflexivity.
  - reflexivity.
Qed.

(** X14.  In the read-back wait, an answer from which the count cannot
    be taken ends the loop by an exception, with no sleep and no second
    request: [TypeError] when the result has no records (a rejected query),
    [IndexError] when it has no row, [KeyError] when its first row has no
    column [c]. *)
Theorem read_loop_raises_on_unusable_result (record_count : Z) (w : World)
    (o : ResultObject) (e : Exn) :
  normalized (backend (calls w) count_sql None) = Some o ->
  first_record_field "c" o = inl e ->
  (exists w',
     (forall fuel,
        read_loop clock backend (S fuel) self record_count w
        = (Raised e, w')) /\
     sleeps (trace w') = sleeps (trace w) /\
     calls w' = S (calls w)) /\
  (e = TypeError /\ records o = None \/
   e = IndexError /\ records o = Some [] \/
   e = KeyError "c" /\
   exists record rest,
     records o = Some (record :: rest) /\ Dict.get "c" record = None).
Proof.
  intros Ho He. split.
  - destruct (execute_untimed clock backend self handle count_sql None w o
                is_connected Ho)
      as (obj & w1 & Hx & Hu & Hcalls & Htrace & _).
    assert (Hr : records obj = records o) by (rewrite <- Hu; reflexivity).
    exists w1. split; [|split].
    + intros fuel. simpl. rewrite (bind_returned _ _ _ _ _ Hx).
      rewrite (first_record_field_records "c" obj o Hr), He. reflexivity.
    + rewrite Htrace. reflexivity.
    + exact Hcalls.
  - unfold first_record_field in He.
    destruct (records o) as [[|record rest]|].
    + right. left. inversion He. split; reflexivity.
    + destruct (Dict.get "c" record) eqn:Hget; [discriminate|].
      right. right. inversion He. split; [reflexivity|].
      exists record, rest. split; [reflexivity|exact Hget].
    + left. inversion He. split; reflexivity.
Qed.

End PhaseEdges.

(** ** async_test *)

Section AsyncTest.

Variable clock : nat -> Time.
Variable backend : nat -> string -> option (list Value) -> Exn + ResultSet.

(** An [async with] block is its body between connecting and closing. *)
Lemma async_with_client_unfold (A : Type) (url : string)
    (body : SQLClient -> M World A) (w : World) :
  async_with_client url body w =
  match body (mkSQLClient url (Some url))
          (mkWorld (reads w) (calls w) (EvConnect url :: trace w)) with
  | (Returned r, w2) => (Returned r, closed w2)
  | (Raised e, w2) => (Raised e, closed w2)
  | (Running, w2) => (Running, w2)
  end.
Proof.
  unfold async_with_client, bind, __aenter__, __aexit__, try, emit,
    SQLClient_init, closed, ret, bind.
  cbn.
  destruct (body (mkSQLClient url (Some url))
              (mkWorld (reads w) (calls w) (EvConnect url :: trace w)))
    as [[r|e|] w2]; reflexivity.
Qed.

(** X15.  [async_test] sends its four statements in order (create,
    insert, select, drop) and closes the client; when each gets an answer
    the executor returns, be it a rejection, it returns whether the count
    of the select result is 1: [False] for a rejected select, not an
    exception. *)
Theorem async_test_outcome (url : string) (w : World) (o : ResultObject) :
  normalized (backend (calls w) insert_test_create_sql None) <> None ->
  normalized (backend (calls w + 1)%nat insert_test_insert_sql
                (Some [VStr "test"])) <> None ->
  normalized (backend (calls w + 2)%nat insert_test_select_sql None)
    = Some o ->
  normalized (backend (calls w + 3)%nat insert_test_drop_sql None) <> None ->
  exists w',
    async_test clock backend url w = (Returned (count_eq (count o) 1), w') /\
    calls w' = (calls w + 4)%nat /\
    dispatched (trace w')
    = insert_test_drop_sql :: insert_test_select_sql
      :: insert_test_insert_sql :: insert_test_create_sql
      :: dispatched (trace w) /\
    exists rest, trace w' = EvClose :: rest.
Proof.
  intros H1 H2 H3 H4.
  set (self := mkSQLClient url (Some url)).
  assert (Hconn : client self = Some url) by reflexivity.
  set (w0 := mkWorld (reads w) (calls w) (EvConnect url :: trace w)).
  destruct (normalized (backend (calls w) insert_test_create_sql None))
    as [o1|] eqn:Ho1; [|congruence].
  destruct (execute_did clock backend self url Hconn
              insert_test_create_sql None w0 o1 Ho1)
    as (r1 & w1 & Hx1 & _ & (Hc1 & Hs1 & Hd1) & _).
  simpl in Hc1.
  destruct (normalized (backend (calls w + 1)%nat insert_test_insert_sql
                          (Some [VStr "test"]))) as [o2|] eqn:Ho2;
    [|congruence].
  replace (calls w + 1)%nat with (calls w1) in Ho2 by lia.
  destruct (execute_did clock backend self url Hconn
              insert_test_insert_sql (Some [VStr "test"]) w1 o2 Ho2)
    as (r2 & w2 & Hx2 & _ & (Hc2 & Hs2 & Hd2) & _).
  replace (calls w + 2)%nat with (calls w2) in H3 by lia.
  destruct (execute_did clock backend self url Hconn
              insert_test_select_sql None w2 o H3)
    as (r3 & w3 & Hx3 & Hu3 & (Hc3 & Hs3 & Hd3) & _).
  destruct (normalized (backend (calls w + 3)%nat insert_test_drop_sql
                          None)) as [o4|] eqn:Ho4; [|congruence].
  replace (calls w + 3)%nat with (calls w3) in Ho4 by lia.
  destruct (execute_did clock backend self url Hconn
              insert_test_drop_sql None w3 o4 Ho4)
    as (r4 & w4 & Hx4 & _ & (Hc4 & Hs4 & Hd4) & _).
  unfold async_test. rewrite async_with_client_unfold. fold self w0.
  rewrite (bind_returned _ _ _ _ _ Hx1), (bind_returned _ _ _ _ _ Hx2),
    (bind_returned _ _ _ _ _ Hx3), (bind_returned _ _ _ _ _ Hx4).
  assert (Hcount : count r3 = count o) by (rewrite <- Hu3; reflexivity).
  rewrite Hcount. unfold ret.
  eexists. split; [reflexivity|]. simpl.
  split; [lia|]. split.
  - rewrite Hd4, Hd3, Hd2, Hd1. reflexivity.
  - eexists; reflexivity.
Qed.

End AsyncTest.

Lemma drop_prior_reports_witness :
  exists obj w',
    phase_drop_prior ticking (scripted healthy_script) connected world0
    = (Returned tt, w') /\
    calls w' = 1%nat /\
    trace w'
    = [EvPrint (MsgText "Table pony does not exist. That's expected.");
       EvResult drop_sql obj; EvDispatch drop_sql None].
Proof.
  exact (drop_prior_reports ticking (scripted healthy_script) connected
           "file:local.db" eq_refl world0
           (failure_result "no such table: pony" "SQLITE_ERROR") eq_refl).
Defined.

Lemma gather_keeps_rejected_inserts_witness :
  exists results w',
    gather ticking (always (inl already_exists)) connected
      [(insert_sql, pony 0); (insert_sql, pony 1)] world0
    = (Returned results, w') /\
    List.length results = 2%nat /\
    Forall (fun r => success r = Some false /\ records r = None) results /\
    calls w' = 2%nat.
Proof.
  apply (gather_keeps_rejected_inserts ticking (always (inl already_exists))
           connected "file:local.db" eq_refl
           [(insert_sql, pony 0); (insert_sql, pony 1)] world0).
  intros i task Hi. eexists; eexists. reflexivity.
Defined.

Lemma schema_rejected_is_retried_witness :
  exists w',
    (forall fuel,
       schema_loop ticking (always (inl no_such_table)) (S fuel) connected
         world0
       = schema_loop ticking (always (inl no_such_table)) fuel connected w') /\
    calls w' = 1%nat /\
    trace w'
    = [EvSleep 1;
       EvPrint
         (MsgText "Schema not synchronized. Sleeping a second before retyry.");
       EvResult schema_sql (failure_result "no such table: pony" "SQLITE_ERROR");
       EvDispatch schema_sql None].
Proof.
  exact (schema_rejected_is_retried ticking (always (inl no_such_table))
           connected "file:local.db" eq_refl world0
           "no such table: pony" "SQLITE_ERROR" eq_refl).
Defined.

Lemma read_loop_raises_on_unusable_result_witness :
  (exists w',
     (forall fuel,
        read_loop ticking (always (inr empty_rs)) (S fuel) connected 5 world0
        = (Raised IndexError, w')) /\
     sleeps (trace w') = [] /\
     calls w' = 1%nat) /\
  (IndexError = TypeError /\ records empty_result = None \/
   IndexError = IndexError /\ records empty_result = Some [] \/
   IndexError = KeyError "c" /\
   exists record rest,
     records empty_result = Some (record :: rest) /\
     Dict.get "c" record = None).
Proof.
  exact (read_loop_raises_on_unusable_result ticking (always (inr empty_rs))
           connected "file:local.db" eq_refl 5 world0 empty_result IndexError
           eq_refl eq_refl).
Defined.

Lemma async_test_outcome_witness :
  (exists w',
     async_test ticking (scripted unseen_script) "http://localhost:8080" world0
     = (Returned false, w') /\
     calls w' = 4%nat /\
     dispatched (trace w')
     = [insert_test_drop_sql; insert_test_select_sql;
        insert_test_insert_sql; insert_test_create_sql] /\
     exists rest, trace w' = EvClose :: rest) /\
  (exists w',
     async_test ticking (scripted seen_script) "file:local.db" world0
     = (Returned true, w') /\
     calls w' = 4%nat /\
     dispatched (trace w')
     = [insert_test_drop_sql; insert_test_select_sql;
        insert_test_insert_sql; insert_test_create_sql] /\
     exists rest, trace w' = EvClose :: rest).
Proof.
  split.
  - refine (async_test_outcome ticking (scripted unseen_script)
              "http://localhost:8080" world0
              (mkResultObject (Some ["id"; "description"]) (Some []) None
                 (Some 0) (Some 0%nat) None (Some true) None None None)
              _ _ eq_refl _); discriminate.
  - refine (async_test_outcome ticking (scripted seen_script)
              "file:local.db" world0
              (mkResultObject (Some ["id"; "description"])
                 (Some [[("id", VInt 1); ("description", VStr "test")]]) None
                 (Some 0) (Some 1%nat) None (Some true) None None None)
              _ _ eq_refl _); discriminate.
Defined.

(** ** The end of the read-back wait, and a lost connection *)

Section ReadBackEnd.

Variable clock : nat -> Time.
Variable backend : nat -> string -> option (list Value) -> Exn + ResultSet.

(** The read-back loop returns only after a result whose first row has
    the expected count in column [c]. *)
Lemma read_loop_returned (self : SQLClient) (record_count : Z) (fuel : nat) :
  forall w w',
    read_loop clock backend fuel self record_count w = (Returned tt, w') ->
    exists obj,
      last_result (trace w') = Some (count_sql, obj) /\
      first_record_field "c" obj = inr (VInt record_count).
Proof.
  induction fuel as [|fuel IH]; intros w w' H; simpl in H; [discriminate|].
  apply bind_returned_inv in H. destruct H as (obj & w1 & Hx & H).
  apply bind_returned_inv in H. destruct H as (v & w1' & Hv & H).
  unfold liftE, reraise in Hv.
  destruct (first_record_field "c" obj) as [e|v0] eqn:Hfield;
    [discriminate|].
  inversion Hv; subst; clear Hv.
  apply bind_returned_inv in H. destruct H as ([] & w2 & Hp & H).
  unfold print, emit in Hp. inversion Hp; subst; clear Hp.
  destruct (py_eq_int v record_count) eqn:Heq.
  - inversion H; subst; clear H. exists obj. simpl.
    rewrite (execute_returned_trace _ _ _ _ _ _ _ _ Hx). simpl.
    split; [reflexivity|].
    destruct v; simpl in Heq; try discriminate.
    apply Z.eqb_eq in Heq. now subst.
  - apply bind_returned_inv in H. destruct H as ([] & w3 & Hs & H).
    now apply IH in H.
Qed.

(** A block that ends by reading its duration returns only if what it
    ran returned, and adds no result of its own. *)
Lemma duration_block_returned (A : Type) (ttl : string) (m : M World A)
    (w w' : World) (x : option Time) :
  with_bench clock ttl (lift m ;; Bench_duration clock) w = (Returned x, w') ->
  exists a w2,
    m (snd (entered clock ttl w)) = (Returned a, w2) /\
    last_result (trace w') = last_result (trace w2).
Proof.
  intros H.
  destruct (m (snd (entered clock ttl w))) as [[a|e|] w2] eqn:Hrun.
  - pose proof (duration_first_read clock (fst (entered clock ttl w)) w2
                  (clock (reads w)) eq_refl eq_refl) as Hd.
    match type of Hd with
    | _ = (Returned (Some ?d), (?b', ?w2')) =>
        destruct (with_bench_outcome clock (option Time) ttl
                    (lift m ;; Bench_duration clock) w
                    (Returned (Some d)) b' w2' (clock (reads w)))
          as (w3 & Hwith & (_ & _ & _ & _ & Hl))
    end.
    + rewrite (surjective_pairing (entered clock ttl w)) at 1.
      rewrite lift_bind, Hrun. exact Hd.
    + reflexivity.
    + rewrite Hwith in H. inversion H; subst.
      exists a, w2. split; [reflexivity|exact Hl].
  - destruct (with_bench_outcome clock (option Time) ttl
                (lift m ;; Bench_duration clock) w
                (Raised e) (fst (entered clock ttl w)) w2 (clock (reads w)))
      as (w3 & Hwith & _).
    + rewrite (surjective_pairing (entered clock ttl w)) at 1.
      rewrite lift_bind, Hrun. reflexivity.
    + reflexivity.
    + rewrite Hwith in H. discriminate.
  - destruct (with_bench_outcome clock (option Time) ttl
                (lift m ;; Bench_duration clock) w
                Running (fst (entered clock ttl w)) w2 (clock (reads w)))
      as (w3 & Hwith & _).
    + rewrite (surjective_pairing (entered clock ttl w)) at 1.
      rewrite lift_bind, Hrun. reflexivity.
    + reflexivity.
    + rewrite Hwith in H. discriminate.
Qed.

(** X16.  Whenever the read-back wait completes, the most recent result
    the executor returned is the one of the count query, and the first row
    of it has the integer [record_count] in column [c]. *)
Theorem read_convergence_completes_on_count (self : SQLClient) (fuel : nat)
    (record_count : Z) (w w' : World) (x : option Time) :
  phase_read_convergence clock backend fuel self record_count w
  = (Returned x, w') ->
  exists obj,
    last_result (trace w') = Some (count_sql, obj) /\
    first_record_field "c" obj = inr (VInt record_count).
Proof.
  unfold phase_read_convergence. intros H.
  apply duration_block_returned in H. destruct H as ([] & w2 & Hloop & Hl).
  destruct (read_loop_returned self record_count fuel _ _ Hloop)
    as (obj & Hlast & Hfield).
  exists obj. split; [|exact Hfield]. now rewrite Hl.
Qed.

(** X17.  [async_test] has no cleanup on the way out of an exception:
    when the select ends by an exception that is not a [LibsqlError] (the
    create and the insert having got an answer), [async_test] raises it;
    the client is closed, but the drop is never sent. *)
Theorem async_test_fatal_skips_drop (url : string) (w : World) (e : Exn) :
  normalized (backend (calls w) insert_test_create_sql None) <> None ->
  normalized (backend (calls w + 1)%nat insert_test_insert_sql
                (Some [VStr "test"])) <> None ->
  backend (calls w + 2)%nat insert_test_select_sql None = inl e ->
  (forall explanation code, e <> LibsqlError explanation code) ->
  exists w',
    async_test clock backend url w = (Raised e, w') /\
    dispatched (trace w')
    = insert_test_select_sql :: insert_test_insert_sql
      :: insert_test_create_sql :: dispatched (trace w) /\
    exists rest, trace w' = EvClose :: rest.
Proof.
  intros H1 H2 H3 Hfatal.
  set (self := mkSQLClient url (Some url)).
  assert (Hconn : client self = Some url) by reflexivity.
  set (w0 := mkWorld (reads w) (calls w) (EvConnect url :: trace w)).
  destruct (normalized (backend (calls w) insert_test_create_sql None))
    as [o1|] eqn:Ho1; [|congruence].
  destruct (execute_did clock backend self url Hconn
              insert_test_create_sql None w0 o1 Ho1)
    as (r1 & w1 & Hx1 & _ & (Hc1 & Hs1 & Hd1) & _).
  simpl in Hc1.
  destruct (normalized (backend (calls w + 1)%nat insert_test_insert_sql
                          (Some [VStr "test"]))) as [o2|] eqn:Ho2;
    [|congruence].
  replace (calls w + 1)%nat with (calls w1) in Ho2 by lia.
  destruct (execute_did clock backend self url Hconn
              insert_test_insert_sql (Some [VStr "test"]) w1 o2 Ho2)
    as (r2 & w2 & Hx2 & _ & (Hc2 & Hs2 & Hd2) & _).
  replace (calls w + 2)%nat with (calls w2) in H3 by lia.
  pose proof (execute_cases clock backend self url insert_test_select_sql
                None w2 Hconn) as Hx3.
  rewrite H3 in Hx3.
  assert (Hraise : exists w3,
             execute clock backend self insert_test_select_sql None w2
             = (Raised e, w3) /\
             trace w3 = EvDispatch insert_test_select_sql None :: trace w2).
  { destruct e; try (eexists; split; [exact Hx3|reflexivity]).
    exfalso. eapply Hfatal. reflexivity. }
  destruct Hraise as (w3 & Hraise & Htrace3).
  unfold async_test. rewrite async_with_client_unfold. fold self w0.
  rewrite (bind_returned _ _ _ _ _ Hx1), (bind_returned _ _ _ _ _ Hx2),
    (bind_raised _ _ _ _ _ Hraise).
  eexists. split; [reflexivity|]. simpl. split.
  - rewrite Htrace3. simpl. rewrite Hd2, Hd1. reflexivity.
  - eexists; reflexivity.
Qed.

End ReadBackEnd.

Lemma read_convergence_completes_on_count_witness :
  exists obj,
    last_result
      (trace (snd (phase_read_convergence ticking (scripted late_count_script)
                     2 connected 2 world0)))
    = Some (count_sql, obj) /\
    first_record_field "c" obj = inr (VInt 2).
Proof.
  eapply (read_convergence_completes_on_count ticking
            (scripted late_count_script) connected 2 2 world0).
  vm_compute. reflexivity.
Defined.

Lemma async_test_fatal_skips_drop_witness :
  exists w',
    async_test ticking (scripted lost_at_select_script)
      "http://localhost:8080" world0
    = (Raised (OtherError "ConnectionError"), w') /\
    dispatched (trace w')
    = [insert_test_select_sql; insert_test_insert_sql;
       insert_test_create_sql] /\
    exists rest, trace w' = EvClose :: rest.
Proof.
  apply (async_test_fatal_skips_drop ticking (scripted lost_at_select_script)
           "http://localhost:8080" world0 (OtherError "ConnectionError")).
  - discriminate.
  - discriminate.
  - reflexivity.
  - discriminate.
Defined.
